(** * Lightsats: the gift-composition form and the claim page

    A shallow embedding of [pages/tips/new.tsx] (the [NewTip] form) and of
    the [ClaimTipPage] component, with the part of the JavaScript runtime
    they rely on: IEEE-754 numbers, [isNaN], [Math.round], [Math.max],
    [parseFloat], [Number.prototype.toString] and truthiness. *)

From Stdlib Require Import ZArith Lia List Bool String Ascii.
From Stdlib Require Import Floats.
From stdpp Require Import base option gmap strings.

Import ListNotations.
Set Warnings "-inexact-float".
Open Scope string_scope.
Open Scope Z_scope.

(* ================================================================== *)
(** * The JavaScript runtime *)
(* ================================================================== *)

Module JS.

(** A JavaScript Number is a binary64 float. *)
Definition number := float.
Bind Scope float_scope with number.

Definition isNaN (x : number) : bool := PrimFloat.is_nan x.

(** [ToBoolean] on a Number: [+0], [-0] and [NaN] are falsy. *)
Definition truthy (x : number) : bool :=
  negb (PrimFloat.is_zero x || PrimFloat.is_nan x).

(** [ToBoolean] on a value that is a Number or [undefined]. *)
Definition truthy_opt (x : option number) : bool :=
  match x with
  | Some v => truthy v
  | None => false
  end.

(** Relational operators and strict equality on Numbers. *)
Definition lt (x y : number) : bool := PrimFloat.ltb x y.
Definition gt (x y : number) : bool := PrimFloat.ltb y x.
Definition le (x y : number) : bool := PrimFloat.leb x y.
Definition ge (x y : number) : bool := PrimFloat.leb y x.
Definition strict_eq (x y : number) : bool := PrimFloat.eqb x y.
Definition strict_neq (x y : number) : bool := negb (PrimFloat.eqb x y).

(** ** Exact integers as Numbers *)

(** The canonical binary64 representation of the integer [q], for
    [q < 2^53]: the mantissa is shifted to 53 bits. *)
Definition SF_of_int (s : bool) (q : positive) : spec_float :=
  match prec - Z.pos (digits2_pos q) with
  | Z.pos sh => S754_finite s (shift_pos sh q) (- Z.pos sh)
  | _ => S754_finite s q 0
  end.

(** ** [Math.round]: the nearest integer, ties towards [+Infinity] *)
Definition round_SF (f : spec_float) : spec_float :=
  match f with
  | S754_finite s m e =>
      match e with
      | Z.neg k =>
          let q := ((if s then Z.neg m else Z.pos m) + 2 ^ (Z.pos k - 1))
                     / 2 ^ Z.pos k in
          match q with
          | Z0 => S754_zero s
          | Z.pos p => SF_of_int false p
          | Z.neg p => SF_of_int true p
          end
      | _ => f
      end
  | _ => f
  end.

Definition Math_round (x : number) : number := SF2Prim (round_SF (Prim2SF x)).

(** ** [Math.max] of two Numbers: [NaN] if either is, and [+0 > -0] *)
Definition Math_max (x y : number) : number :=
  if PrimFloat.is_nan x then x
  else if PrimFloat.is_nan y then y
  else if PrimFloat.ltb x y then y
  else if PrimFloat.ltb y x then x
  else if PrimFloat.get_sign x then y else x.

(** ** Decimal text to Number

    [decimal_to_SF s d ex] is the binary64 value nearest to
    [(-1)^s * d * 10^ex] (ties to even): the rounding [StringNumericValue]
    applies to the mathematical value of a numeric literal.  A negative
    power of ten is divided out with 64 extra bits and a sticky bit, so
    that the final rounding sees on which side of a midpoint the exact
    quotient lies.  A decimal of more than 400 digits before the point,
    or with more than 400 zeros after it, is infinite or zero without
    any arithmetic. *)
Definition decimal_to_SF (s : bool) (d : positive) (ex : Z) : spec_float :=
  let l := Z.log2 (Z.pos d) in
  if 400 <? l / 4 + ex then S754_infinity s
  else if (l + 1) / 3 + 1 + ex <? -400 then S754_zero s
  else
    match ex with
    | Z.neg p =>
        let D := 10 ^ Z.pos p in
        let sh := Z.max 0 (64 + Z.log2 D - l) in
        let (q, r) := Z.div_eucl (Z.pos d * 2 ^ sh) D in
        let m := 2 * q + (if r =? 0 then 0 else 1) in
        binary_normalize prec emax (if s then - m else m) (- sh - 1) s
    | _ =>
        let m := Z.pos d * 10 ^ ex in
        binary_normalize prec emax (if s then - m else m) 0 s
    end.

Definition decimal_to_number (s : bool) (d : Z) (ex : Z) : number :=
  match d with
  | Z.pos p => SF2Prim (decimal_to_SF s p ex)
  | _ => if s then (-0)%float else 0%float
  end.

(** ** [parseFloat] *)

Definition is_digit (c : ascii) : bool :=
  let n := nat_of_ascii c in (48 <=? n)%nat && (n <=? 57)%nat.

Definition digit_value (c : ascii) : Z := Z.of_nat (nat_of_ascii c) - 48.

(** White space and line terminators of the ASCII range. *)
Definition is_white_space (c : ascii) : bool :=
  let n := nat_of_ascii c in
  ((9 <=? n)%nat && (n <=? 13)%nat) || (n =? 32)%nat.

Fixpoint trim_start (s : string) : string :=
  match s with
  | String c r => if is_white_space c then trim_start r else s
  | EmptyString => s
  end.

(** The longest prefix of decimal digits: its value, its length, the rest. *)
Fixpoint take_digits (acc : Z) (len : Z) (s : string) : Z * Z * string :=
  match s with
  | String c r =>
      if is_digit c then take_digits (10 * acc + digit_value c) (len + 1) r
      else (acc, len, s)
  | EmptyString => (acc, len, s)
  end.

Definition take_sign (s : string) : bool * string :=
  match s with
  | String "-" r => (true, r)
  | String "+" r => (false, r)
  | _ => (false, s)
  end.

(** The value of an [ExponentPart] that starts the string, [0] if there
    is none (an [e] that no digit follows is not part of the literal). *)
Definition take_exponent (s : string) : Z :=
  match s with
  | String c r =>
      if (Ascii.eqb c "e" || Ascii.eqb c "E")%bool then
        let (neg, r1) := take_sign r in
        let '(v, len, _) := take_digits 0 0 r1 in
        if len =? 0 then 0 else if neg then - v else v
      else 0
  | EmptyString => 0
  end.

(** The Number of the longest [StrUnsignedDecimalLiteral] that starts
    the string, [NaN] if there is none. *)
Definition parse_unsigned (neg : bool) (s1 : string) : number :=
  if String.prefix "Infinity" s1
  then (if neg then neg_infinity else infinity)
  else
    let '(ip, ilen, s2) := take_digits 0 0 s1 in
    let '(m, flen, s3) :=
      match s2 with
      | String "." r => take_digits ip 0 r
      | _ => (ip, 0, s2)
      end in
    if ilen + flen =? 0 then nan
    else decimal_to_number neg m (take_exponent s3 - flen).

Definition parseFloat (input : string) : number :=
  let (neg, s1) := take_sign (trim_start input) in
  parse_unsigned neg s1.

(** ** [Number.prototype.toString] (radix 10) *)

Definition digit_char (d : Z) : ascii := ascii_of_nat (48 + Z.to_nat d).

Fixpoint decimal_digits_aux (fuel : nat) (n : Z) (acc : string) : string :=
  match fuel with
  | O => acc
  | S f =>
      let acc' := String (digit_char (n mod 10)) acc in
      if n <? 10 then acc' else decimal_digits_aux f (n / 10) acc'
  end.

Definition decimal_digits (n : Z) : string :=
  decimal_digits_aux (S (Z.to_nat (Z.log2 n))) n "".

Fixpoint zeros (n : nat) : string :=
  match n with
  | O => ""
  | S k => String "0" (zeros k)
  end.

(** For [A / B >= 1]: the least [n >= n0] with [A < P], where [P] is
    [10^n * B] and grows with [n]. *)
Fixpoint search_up (fuel : nat) (A P n : Z) : Z :=
  match fuel with
  | O => n
  | S f => if A <? P then n else search_up f A (10 * P) (n + 1)
  end.

(** For [A / B < 1]: the least [j >= j0] with [B <= Q], where [Q] is
    [A * 10^j]. *)
Fixpoint search_down (fuel : nat) (Q B j : Z) : Z :=
  match fuel with
  | O => j
  | S f => if B <=? Q then j else search_down f (10 * Q) B (j + 1)
  end.

(** The [n] with [10^(n-1) <= A / B < 10^n]. *)
Definition magnitude (A B : Z) : Z :=
  if B <=? A then search_up 400 A (10 * B) 1
  else 1 - search_down 400 (10 * A) B 1.

(** A candidate [c] of [k] digits for the Number of exponent [n], as the
    decimal [d * 10^ex] it stands for: [10^k] is the one digit [1]. *)
Definition candidate (k n c : Z) : Z * Z :=
  if c =? 10 ^ k then (1, n) else (c, n - k).

(** The decimal reads back as the Number [m * 2^e]. *)
Definition reads_back (m : positive) (e : Z) (c : Z * Z) : bool :=
  (0 <? fst c) &&
  SFeqb (decimal_to_SF false (Z.to_pos (fst c)) (snd c)) (S754_finite false m e).

(** The Number [m * 2^e] written out in full. *)
Definition exact_decimal (m : positive) (e : Z) : Z * Z :=
  match e with
  | Z.neg p => (Z.pos m * 5 ^ Z.pos p, e)
  | _ => (Z.pos m * 2 ^ e, 0)
  end.

(** The decimal [s * 10^(n-k)] for the Number [m * 2^e > 0]: [k] digits
    with [k] as small as possible such that it reads back as the Number,
    the closest such [s], the even one of two equally close.  Seventeen
    digits always do; were they not to, the Number is written out in
    full. *)
Fixpoint shortest_digits (fuel : nat) (k : Z) (m : positive) (e : Z)
    (A B n : Z) : Z * Z :=
  let (num, den) :=
    if n <=? k then (A * 10 ^ (k - n), B) else (A, B * 10 ^ (n - k)) in
  let lo := num / den in
  let r := num mod den in
  let hi := lo + 1 in
  let lo_first :=
    match 2 * r ?= den with
    | Lt => true
    | Gt => false
    | Eq => Z.even lo
    end in
  let clo := candidate k n lo in
  let chi := candidate k n hi in
  match reads_back m e clo, reads_back m e chi, fuel with
  | true, true, _ => if lo_first then clo else chi
  | true, false, _ => clo
  | false, true, _ => chi
  | false, false, S f => shortest_digits f (k + 1) m e A B n
  | false, false, O => exact_decimal m e
  end.

(** The digits as text, and the exponent [n]: the Number is
    [0.digits * 10^n]. *)
Definition Number_digits (m : positive) (e : Z) : string * Z :=
  let A := match e with Z.pos _ => Z.pos m * 2 ^ e | _ => Z.pos m end in
  let B := match e with Z.neg p => 2 ^ Z.pos p | _ => 1 end in
  let (d, ex) := shortest_digits 16 1 m e A B (magnitude A B) in
  let ds := decimal_digits d in
  (ds, ex + Z.of_nat (String.length ds)).

(** The layout of [Number::toString] for the digits [ds] and exponent [n]. *)
Definition Number_layout (ds : string) (n : Z) : string :=
  let k := Z.of_nat (String.length ds) in
  if (k <=? n) && (n <=? 21) then ds ++ zeros (Z.to_nat (n - k))
  else if (0 <? n) && (n <=? 21) then
    substring 0 (Z.to_nat n) ds ++ "." ++
    substring (Z.to_nat n) (Z.to_nat (k - n)) ds
  else if (-6 <? n) && (n <=? 0) then "0." ++ zeros (Z.to_nat (- n)) ++ ds
  else
    let ex := n - 1 in
    let exp_text :=
      (if ex <? 0 then "-" else "+") ++ decimal_digits (Z.abs ex) in
    match ds with
    | String d EmptyString => String d ("e" ++ exp_text)
    | String d rest => String d ("." ++ rest ++ "e" ++ exp_text)
    | EmptyString => ""
    end.

Definition Number_toString (x : number) : string :=
  match Prim2SF x with
  | S754_nan => "NaN"
  | S754_zero _ => "0"
  | S754_infinity s => if s then "-Infinity" else "Infinity"
  | S754_finite s m e =>
      let (ds, n) := Number_digits m e in
      (if s then "-" else "") ++ Number_layout ds n
  end.

(** ** Digit strings, for the proofs *)

Fixpoint all_digits (s : string) : bool :=
  match s with
  | String c r => is_digit c && all_digits r
  | EmptyString => true
  end.

(** The string does not go on with a digit. *)
Definition ends_digits (s : string) : bool :=
  match s with
  | String c _ => negb (is_digit c)
  | EmptyString => true
  end.

(** The number a digit string denotes, after the digits read so far. *)
Fixpoint digits_value (acc : Z) (s : string) : Z :=
  match s with
  | String c r => digits_value (10 * acc + digit_value c) r
  | EmptyString => acc
  end.

(** Text does not carry the sign of zero: [-0] prints as ["0"].  This is
    the Number with that sign dropped. *)
Definition unsigned_zero (x : number) : number :=
  if PrimFloat.is_zero x then 0%float else x.

(** ** The value of a Number, for the proofs

    A binary64 Number that is not [NaN] is an integer multiple of
    [2^-1074]: [scaled] is that integer, with [2^2098], which no finite
    Number reaches, standing for infinity. *)
Definition scaled (f : spec_float) : Z :=
  match f with
  | S754_zero _ => 0
  | S754_infinity s => if s then - 2 ^ 2098 else 2 ^ 2098
  | S754_nan => 0
  | S754_finite s m e =>
      (if s then Z.neg m else Z.pos m) * 2 ^ (e + 1074)
  end.

(** [Math.round] on scaled values: the nearest multiple of [2^1074],
    ties upwards. *)
Definition roundZ (v : Z) : Z := (v + 2 ^ 1073) / 2 ^ 1074 * 2 ^ 1074.

End JS.

(* ================================================================== *)
(** * Effects: a trace of actions, and exceptions *)
(* ================================================================== *)

(** A computation appends the actions it performs to a trace and either
    returns a value or throws an [Error] (kept as its message).  Whatever
    was performed before a [throw] stays in the trace. *)
Module Eff.
Section WithAction.
Context {Action : Type}.

Definition M (A : Type) : Type := list Action * (string + A).

Definition ret {A} (a : A) : M A := ([], inr a).

Definition bind {A B} (m : M A) (k : A -> M B) : M B :=
  match m with
  | (t, inl e) => (t, inl e)
  | (t, inr a) => let (t', r) := k a in ((t ++ t')%list, r)
  end.

Definition throw {A} (e : string) : M A := ([], inl e).

Definition emit (a : Action) : M unit := ([a], inr tt).

(** [try { m } catch (error) { h error }] *)
Definition try_catch {A} (m : M A) (h : string -> M A) : M A :=
  match m with
  | (t, inl e) => let (t', r) := h e in ((t ++ t')%list, r)
  | (t, inr a) => (t, inr a)
  end.

(** [if (c) { m }] *)
Definition when (c : bool) (m : M unit) : M unit :=
  if c then m else ret tt.

Definition trace {A} (m : M A) : list Action := fst m.
Definition outcome {A} (m : M A) : string + A := snd m.
End WithAction.
Arguments M : clear implicits.
End Eff.

(** The computations form a monad in stdpp's sense, which gives them the
    notations [x ← m; k] and [m ;; k]. *)
#[export] Instance M_ret {Action} : MRet (Eff.M Action) := @Eff.ret Action.
#[export] Instance M_bind {Action} : MBind (Eff.M Action) :=
  fun A B k m => Eff.bind m k.

(* ================================================================== *)
(** * lib/utils and lib/constants *)
(* ================================================================== *)

Module Utils.
Import JS.

(** Modelled from the spec: [getSatsAmount] of lib/utils, which is not
    part of the sources at hand.  "toBaseUnits(fiatAmount, rate) ->
    fiatAmount / rate". *)
Definition getSatsAmount (fiat exchangeRate : number) : number :=
  (fiat / exchangeRate)%float.

(** Modelled from the spec: [getFiatAmount] of lib/utils.
    "toFiat(baseAmount, rate) -> baseAmount * rate". *)
Definition getFiatAmount (sats exchangeRate : number) : number :=
  (sats * exchangeRate)%float.

(** Modelled from the spec: [calculateFee] of lib/utils, over the two
    constants of lib/constants it reads.  "computeFee(baseAmount) ->
    max(MINIMUM_FEE, baseAmount * FEE_PERCENT / 100), rounded to the
    nearest whole base unit". *)
Definition calculateFee (MINIMUM_FEE_SATS FEE_PERCENT : number)
    (amount : number) : number :=
  Math_round (Math_max MINIMUM_FEE_SATS (amount * FEE_PERCENT / 100)%float).

End Utils.

(* ================================================================== *)
(** * pages/tips/new.tsx: the gift-composition form *)
(* ================================================================== *)

Module NewTip.
Import JS.

Inductive ExpiryUnit := minutes | hours | days.

Inductive InputMethod := fiat | sats.

(** [NewTipFormData].  [amount], [note] and [tippeeName] have no default
    value: they are [undefined] until set. *)
Record NewTipFormData := {
  amount : option number;
  amountString : string;
  currency : string;
  note : option string;
  expiresIn : number;
  expiryUnit : ExpiryUnit;
  tippeeName : option string;
  tippeeLocale : string;
}.

(** The component's state: the two [useState] cells, the form values, and
    what [useExchangeRates] returned ([undefined] until the table loads).
    [location] is the router's current path. *)
Record State := {
  isSubmitting : bool;
  inputMethod : InputMethod;
  form : NewTipFormData;
  exchangeRates : option (gmap string number);
  location : string;
}.

Definition set_form (f : NewTipFormData -> NewTipFormData) (st : State) : State :=
  {| isSubmitting := isSubmitting st; inputMethod := inputMethod st;
     form := f (form st); exchangeRates := exchangeRates st;
     location := location st |}.

(** [setValue("amount", v)] and [setValue("amountString", s)]. *)
Definition setValue_amount (v : number) (d : NewTipFormData) : NewTipFormData :=
  {| amount := Some v; amountString := amountString d; currency := currency d;
     note := note d; expiresIn := expiresIn d; expiryUnit := expiryUnit d;
     tippeeName := tippeeName d; tippeeLocale := tippeeLocale d |}.

Definition setValue_amountString (s : string) (d : NewTipFormData) : NewTipFormData :=
  {| amount := amount d; amountString := s; currency := currency d;
     note := note d; expiresIn := expiresIn d; expiryUnit := expiryUnit d;
     tippeeName := tippeeName d; tippeeLocale := tippeeLocale d |}.

Definition setInputMethod (m : InputMethod) (st : State) : State :=
  {| isSubmitting := isSubmitting st; inputMethod := m; form := form st;
     exchangeRates := exchangeRates st; location := location st |}.

(** [ToNumber] of a value that is a Number or [undefined]. *)
Definition ToNumber (v : option number) : number :=
  match v with
  | Some n => n
  | None => nan
  end.

(** [exchangeRates?.[watchedCurrency]] *)
Definition watchedExchangeRate (st : State) : option number :=
  match exchangeRates st with
  | Some rates => rates !! currency (form st)
  | None => None
  end.

(** The values that travel in a request object. *)
Inductive value {Date : Type} :=
  | VUndefined
  | VNumber (n : number)
  | VString (s : string)
  | VDate (d : Date).
Arguments value : clear implicits.

Definition is_undefined {Date} (v : value Date) : bool :=
  match v with
  | VUndefined => true
  | _ => false
  end.

(** The members [JSON.stringify] writes for an object, in order: a
    member whose value is [undefined] is left out. *)
Definition JSON_stringify {Date} (o : list (string * value Date))
  : list (string * value Date) :=
  List.filter (fun kv => negb (is_undefined (snd kv))) o.

(** A date-fns [Duration] with the one key [{[unit]: n}]. *)
Definition Duration : Type := ExpiryUnit * number.

Inductive Action {Date : Type} :=
  | SetSubmitting (b : bool)
  | Fetch (url method : string) (body : list (string * value Date))
  | ToastSuccess (msg : string)
  | ToastError (msg : string)
  | ConsoleError (error : string)
  | RouterPush (url : string).
Arguments Action : clear implicits.

(** What [result.json()] gives: the created tip, of which the page reads
    the [id], or an error thrown while reading the body. *)
Inductive JsonOutcome :=
  | JsonTip (id : string)
  | JsonThrows (error : string).

(** How the [fetch] of the creation request ends: the promise rejects,
    or resolves to a response. *)
Inductive FetchOutcome :=
  | Rejected (error : string)
  | Response (ok : bool) (statusText : string) (json : JsonOutcome).

(** Rounding to cents, as [toggleInputMethod] does it:
    [Math.round(x * 100) / 100]. *)
Definition round2 (x : number) : number := (Math_round (x * 100) / 100)%float.

Section Page.
(** lib/constants, lib/Routes, lib/utils and date-fns are not part of
    the sources at hand: the page is embedded over them. *)
Variables MIN_TIP_SATS MAX_TIP_SATS : number.
Variable Routes_tips : string.
Variables getSatsAmount getFiatAmount : number -> number -> number.
Variable calculateFee : number -> number.
Variable Date : Type.
Variable add : Date -> Duration -> Date.

Local Abbreviation M := (Eff.M (Action Date)).

(** [watchedAmountFee] *)
Definition watchedAmountFee (st : State) : number :=
  match watchedExchangeRate st with
  | Some rate =>
      if truthy rate then
        calculateFee
          (match inputMethod st with
           | fiat => getSatsAmount (ToNumber (amount (form st))) rate
           | sats => ToNumber (amount (form st))
           end)
      else 0%float
  | None => 0%float
  end.

(** The fee row: [None] stands for the [Loading] spinner shown while
    there is no exchange rate, [Some n] for "+n sats". *)
Definition displayedFee (st : State) : option number :=
  if truthy_opt (watchedExchangeRate st) then
    Some (if negb (isNaN (watchedAmountFee st)) then watchedAmountFee st
          else 0%float)
  else None.

(** The body of the effect on [watchedAmountString]. *)
Definition syncAmount (st : State) : State :=
  let parsedValue := parseFloat (amountString (form st)) in
  if negb (isNaN parsedValue) then set_form (setValue_amount parsedValue) st
  else st.

(** The effect with its dependency: it runs after a render whose
    [amountString] differs from the one of the render before
    ([None]: there was none, the component has just mounted). *)
Definition amountStringEffect (previous : option string) (st : State) : State :=
  if decide (previous = Some (amountString (form st))) then st
  else syncAmount st.

Definition toggleInputMethod (st : State) : State :=
  match watchedExchangeRate st with
  | Some rate =>
      if truthy rate then
        let watchedAmount := ToNumber (amount (form st)) in
        set_form
          (setValue_amountString
             (Number_toString
                (match inputMethod st with
                 | fiat => getSatsAmount watchedAmount rate
                 | sats =>
                     (Math_round (getFiatAmount watchedAmount rate * 100)
                      / 100)%float
                 end)))
          (setInputMethod
             (match inputMethod st with fiat => sats | sats => fiat end) st)
      else st
  | None => st
  end.

(** A click on the switch button: the callback, then the render it
    causes with the effect on [amountString]. *)
Definition clickToggle (st : State) : State :=
  amountStringEffect (Some (amountString (form st))) (toggleInputMethod st).


(** [createTipRequest] *)
Definition createTipRequest (data : NewTipFormData) (satsAmount : number)
    (now : Date) : list (string * value Date) :=
  [ ("amount", VNumber satsAmount);
    ("currency", VString (currency data));
    ("note", match note data with
             | Some n => if (0 <? String.length n)%nat then VString n
                         else VUndefined
             | None => VUndefined
             end);
    ("expiry", VDate (add now (expiryUnit data, expiresIn data)));
    ("tippeeName", match tippeeName data with
                   | Some n => if (0 <? String.length n)%nat then VString n
                               else VUndefined
                   | None => VUndefined
                   end);
    ("tippeeLocale", VString (tippeeLocale data)) ].

(** [await fetch(...)]: a rejected promise is thrown at the [await]. *)
Definition await_fetch (o : FetchOutcome) : M (bool * string * JsonOutcome) :=
  match o with
  | Rejected e => Eff.throw e
  | Response ok statusText json => Eff.ret (ok, statusText, json)
  end.

(** [(await result.json()) as Tip], then its [id]. *)
Definition await_json_id (json : JsonOutcome) : M string :=
  match json with
  | JsonTip id => Eff.ret id
  | JsonThrows e => Eff.throw e
  end.

(** The async block of [onSubmit], run to its end against the way the
    request ends. *)
Definition submitTip (data : NewTipFormData) (satsAmount : number)
    (now : Date) (o : FetchOutcome) : M unit :=
  Eff.try_catch
    (Eff.emit (Fetch "/api/tipper/tips" "POST"
                 (JSON_stringify (createTipRequest data satsAmount now))) ;;
     result ← await_fetch o;
     let '(ok, statusText, json) := result in
     if ok : bool then
       Eff.emit (ToastSuccess "Tip created") ;;
       id ← await_json_id json;
       Eff.emit (RouterPush (Routes_tips ++ "/" ++ id))
     else
       Eff.emit (ToastError ("Failed to create tip: " ++ statusText)))
    (fun error =>
       Eff.emit (ConsoleError error) ;;
       Eff.emit (ToastError "Tip creation failed. Please try again.")) ;;
  Eff.emit (SetSubmitting false).

Definition too_large_message : string :=
  "Tip amount is too large. Please use a value no more than " ++
  Number_toString MAX_TIP_SATS ++ " satoshis".

Definition onSubmit (st : State) (data : NewTipFormData) (now : Date)
    (o : FetchOutcome) : M unit :=
  match watchedExchangeRate st with
  | Some rate =>
      if truthy rate then
        Eff.when (isSubmitting st) (Eff.throw "Already submitting") ;;
        let satsAmount :=
          match inputMethod st with
          | fiat => getSatsAmount (ToNumber (amount data)) rate
          | sats => ToNumber (amount data)
          end in
        Eff.when (isNaN satsAmount) (Eff.throw "Invalid tip amount") ;;
        Eff.when (lt satsAmount MIN_TIP_SATS)
          (Eff.throw "Tip amount is too small") ;;
        Eff.when (gt satsAmount MAX_TIP_SATS) (Eff.throw too_large_message) ;;
        Eff.when (strict_neq (Math_round satsAmount) satsAmount)
          (Eff.throw "sat amount must be a whole value") ;;
        Eff.emit (SetSubmitting true) ;;
        submitTip data satsAmount now o
      else Eff.throw "Exchange rates not loaded"
  | None => Eff.throw "Exchange rates not loaded"
  end.

(** The base-unit amount a submission is about. *)
Definition satsAmount (st : State) (data : NewTipFormData) : number :=
  match inputMethod st with
  | fiat =>
      getSatsAmount (ToNumber (amount data))
        (ToNumber (watchedExchangeRate st))
  | sats => ToNumber (amount data)
  end.

(** The preconditions of a submission as the specification lists them,
    in its order, each with the error raised when it does not hold:
    an exchange rate is loaded, no submission is in flight, the amount
    is a number, at least the minimum, at most the maximum, and
    whole. *)
Definition preconditions (st : State) (data : NewTipFormData)
  : list (bool * string) :=
  let amt := satsAmount st data in
  [ (truthy_opt (watchedExchangeRate st), "Exchange rates not loaded");
    (negb (isSubmitting st), "Already submitting");
    (negb (isNaN amt), "Invalid tip amount");
    (ge amt MIN_TIP_SATS, "Tip amount is too small");
    (le amt MAX_TIP_SATS, too_large_message);
    (strict_eq (Math_round amt) amt, "sat amount must be a whole value") ].

Definition first_failure (st : State) (data : NewTipFormData)
  : option (bool * string) :=
  find (fun c => negb (fst c)) (preconditions st data).

(** What the async block does once the request has ended, as the
    specification tells it: navigation after an OK response, the
    status text after a non-OK one, a generic report of anything
    thrown. *)
Definition after_request (o : FetchOutcome) : list (Action Date) :=
  match o with
  | Response true _ (JsonTip id) =>
      [ToastSuccess "Tip created"; RouterPush (Routes_tips ++ "/" ++ id)]
  | Response true _ (JsonThrows e) =>
      [ToastSuccess "Tip created"; ConsoleError e;
       ToastError "Tip creation failed. Please try again."]
  | Response false statusText _ =>
      [ToastError ("Failed to create tip: " ++ statusText)]
  | Rejected e =>
      [ConsoleError e; ToastError "Tip creation failed. Please try again."]
  end.

(** What an action does to the page. *)
Definition perform (st : State) (a : Action Date) : State :=
  match a with
  | SetSubmitting b =>
      {| isSubmitting := b; inputMethod := inputMethod st; form := form st;
         exchangeRates := exchangeRates st; location := location st |}
  | RouterPush url =>
      {| isSubmitting := isSubmitting st; inputMethod := inputMethod st;
         form := form st; exchangeRates := exchangeRates st;
         location := url |}
  | _ => st
  end.

Definition perform_all (st : State) (t : list (Action Date)) : State :=
  fold_left perform t st.

(** [<Button type="submit" disabled={isSubmitting}>] *)
Definition submitEnabled (st : State) : bool := negb (isSubmitting st).

End Page.
End NewTip.

(* ================================================================== *)
(** * The claim page ([ClaimTipPage]) *)
(* ================================================================== *)

Module ClaimTipPage.

(** [PublicTip] (types/PublicTip.ts) *)
Record PublicTip := {
  amount : JS.number;
  tipperId : string;
  tippeeId : option string;
  currency : option string;
  note : option string;
  hasClaimed : bool;
  tipper_name : option string;
  tipper_twitterUsername : option string;
}.

(** The session of next-auth, as far as the page reads it:
    [session.user.id]. *)
Record Session := { user_id : string }.

(** What the hooks hand to one render: the SWR data, the session, the
    [id] of the route, and the identities of the two objects the effect
    lists as dependencies. *)
Record Props := {
  publicTip : option PublicTip;
  session : option Session;
  id : option string;
  mutatePublicTip : nat;
  router : nat;
}.

(** [session && publicTip && session.user.id === publicTip.tipperId],
    as the boolean its uses convert it to. *)
Definition isTipper (p : Props) : bool :=
  match session p, publicTip p with
  | Some s, Some t => String.eqb (user_id s) (tipperId t)
  | _, _ => false
  end.

(** [publicTip && !publicTip.hasClaimed && session && !isTipper] *)
Definition canClaim (p : Props) : bool :=
  match publicTip p with
  | Some t =>
      negb (hasClaimed t) &&
      match session p with
      | Some _ => negb (isTipper p)
      | None => false
      end
  | None => false
  end.

Inductive Action :=
  | SetClaimed (b : bool)
  | Fetch (url method body : string)
  | Alert (msg : string)
  | MutatePublicTip.

Inductive FetchOutcome :=
  | Rejected (error : string)
  | Response (ok : bool) (statusText : string).

(** The dependency array [[canClaim, hasClaimed, id, mutatePublicTip,
    router]] of a render. *)
Definition Deps : Type := bool * bool * option string * nat * nat.

(** The page between two events: the [useState] latch, the dependencies
    of the last render (none before the first), and the claim requests
    that are in flight. *)
Record State := {
  latch : bool;
  lastDeps : option Deps;
  inFlight : nat;
}.

Definition initial : State :=
  {| latch := false; lastDeps := None; inFlight := 0 |}.

(** [`/api/tippee/tips/${id}/claim`] *)
Definition claim_url (i : option string) : string :=
  "/api/tippee/tips/" ++ default "undefined" i ++ "/claim".

(** The effect's body up to the [await]: the latch, then the request. *)
Definition claimEffect (p : Props) (hasClaimed : bool) : list Action :=
  if canClaim p && negb hasClaimed then
    [SetClaimed true; Fetch (claim_url (id p)) "POST" "{}"]
  else [].

(** The rest of the async block, once the request has ended.  The block
    has no [catch]: a rejected [fetch] ends it with nothing done. *)
Definition claimSettled (o : FetchOutcome) : list Action :=
  match o with
  | Response ok statusText =>
      if negb ok then
        [Alert ("Failed to claim tip: " ++ statusText ++
                ". Please refresh the page to try again.")]
      else [MutatePublicTip]
  | Rejected _ => []
  end.

Definition perform (st : State) (a : Action) : State :=
  match a with
  | SetClaimed b =>
      {| latch := b; lastDeps := lastDeps st; inFlight := inFlight st |}
  | Fetch _ _ _ =>
      {| latch := latch st; lastDeps := lastDeps st;
         inFlight := S (inFlight st) |}
  | _ => st
  end.

Inductive Event :=
  | Render (p : Props)
  | Settled (o : FetchOutcome).

Definition deps_of (p : Props) (st : State) : Deps :=
  (canClaim p, latch st, id p, mutatePublicTip p, router p).

(** One event: a render runs the effect when a dependency has changed
    (or on mount); the end of a request in flight runs the rest of the
    async block. *)
Definition step (st : State) (e : Event) : State * list Action :=
  match e with
  | Render p =>
      let d := deps_of p st in
      if decide (lastDeps st = Some d) then (st, [])
      else
        let acts := claimEffect p (latch st) in
        (fold_left perform acts
           {| latch := latch st; lastDeps := Some d; inFlight := inFlight st |},
         acts)
  | Settled o =>
      match inFlight st with
      | O => (st, [])
      | S n =>
          let acts := claimSettled o in
          (fold_left perform acts
             {| latch := latch st; lastDeps := lastDeps st; inFlight := n |},
           acts)
      end
  end.

(** A page lifetime: the events in order, with the actions they cause. *)
Fixpoint run (st : State) (es : list Event) : State * list Action :=
  match es with
  | [] => (st, [])
  | e :: es' =>
      let (st1, t1) := step st e in
      let (st2, t2) := run st1 es' in
      (st2, (t1 ++ t2)%list)
  end.

Definition is_request (a : Action) : bool :=
  match a with
  | Fetch _ _ _ => true
  | _ => false
  end.

Definition requests (t : list Action) : list Action :=
  List.filter is_request t.

(** A render at which the eligibility predicate holds. *)
Definition eligible (e : Event) : bool :=
  match e with
  | Render p => canClaim p
  | Settled _ => false
  end.

(** A render whose viewer is the creator of the tip. *)
Definition viewer_is_creator (p : Props) : Prop :=
  exists s t, session p = Some s /\ publicTip p = Some t /\
              user_id s = tipperId t.

(** The page before the predicate has held: the latch is unset, nothing
    is in flight, and the last render, if any, saw the predicate false. *)
Definition waiting (st : State) : Prop :=
  latch st = false /\ inFlight st = 0%nat /\
  forall c h i m r, lastDeps st = Some (c, h, i, m, r) -> c = false.

(** A render for the creator of a tip, claimed or not. *)
Definition creator_props (claimed : bool) : Props :=
  {| publicTip := Some {| amount := 1000%float; tipperId := "alice";
                          tippeeId := None; currency := Some "USD";
                          note := None; hasClaimed := claimed;
                          tipper_name := Some "Alice";
                          tipper_twitterUsername := None |};
     session := Some {| user_id := "alice" |};
     id := Some "tip1"; mutatePublicTip := 0; router := 0 |}.

End ClaimTipPage.

(* ================================================================== *)
(** * The claim page: what it renders *)
(* ================================================================== *)

Module ClaimTipView.
Import ClaimTipPage.

(** A string, [null] when absent, used as a condition: [null] and the
    empty string are falsy. *)
Definition truthy_text (s : option string) : bool :=
  match s with
  | Some "" => false
  | Some _ => true
  | None => false
  end.

(** The props handed to [FiatPrice]. *)
Record FiatPriceProps := {
  price_currency : string;
  price_exchangeRate : option JS.number;
  price_sats : JS.number;
}.

(** The two lines of text of a rendered [Note]. *)
Record NoteLines := {
  note_heading : string;
  note_text : string;
}.

(** [Note]: [None] stands for the [null] it returns when there is no
    note to show. *)
Definition Note (tipperName note : option string) : option NoteLines :=
  match note with
  | Some n =>
      if truthy_text (Some n) then
        Some {| note_heading :=
                  match tipperName with
                  | Some name =>
                      if truthy_text (Some name)
                      then name ++ " also sent you a note:"
                      else "You were also sent a note:"
                  | None => "You were also sent a note:"
                  end;
                note_text := n |}
      else None
  | None => None
  end.

(** The screens of the page, one for each branch of its JSX, with the
    parts that depend on the data. *)
Inductive Screen :=
  | LoadingTip
  | TipClaimed (withdraw : string) (note : option NoteLines)
  | AlreadyGifted
  | SignInPrompt (title : string) (price : FiatPriceProps)
      (satoshis : JS.number) (note : option NoteLines)
  | CreatorCannotClaim
  | ClaimingTip.

(** [publicTip.tippeeId === session?.user.id]: with no session the right
    side is [undefined], which no [tippeeId] equals, [null] included. *)
Definition viewer_is_tippee (t : PublicTip) (s : option Session) : bool :=
  match tippeeId t, s with
  | Some i, Some s => String.eqb i (user_id s)
  | _, _ => false
  end.

Section Page.
(** lib/constants and lib/Routes are not part of the sources at hand. *)
Variable DEFAULT_FIAT_CURRENCY : string.
Variable Routes_withdraw : string.

(** [publicTip?.currency ?? DEFAULT_FIAT_CURRENCY] *)
Definition tipCurrency (p : Props) : string :=
  match publicTip p with
  | Some t => default DEFAULT_FIAT_CURRENCY (currency t)
  | None => DEFAULT_FIAT_CURRENCY
  end.

(** What the component returns, for the exchange rates SWR has (none
    while they load). *)
Definition render (exchangeRates : option (gmap string JS.number))
    (p : Props) : Screen :=
  match publicTip p with
  | Some t =>
      if hasClaimed t then
        if viewer_is_tippee t (session p) then
          TipClaimed Routes_withdraw (Note (tipper_name t) (note t))
        else AlreadyGifted
      else
        match session p with
        | None =>
            SignInPrompt
              (match tipper_name t with
               | Some name =>
                   if truthy_text (Some name)
                   then name ++ " has gifted you:"
                   else "You've been gifted:"
               | None => "You've been gifted:"
               end)
              {| price_currency := tipCurrency p;
                 price_exchangeRate :=
                   match exchangeRates with
                   | Some rates => rates !! tipCurrency p
                   | None => None
                   end;
                 price_sats := amount t |}
              (amount t)
              (Note (tipper_name t) (note t))
        | Some _ =>
            if isTipper p then CreatorCannotClaim else ClaimingTip
        end
  | None => LoadingTip
  end.

End Page.

(** The note a screen shows, if it shows one. *)
Definition shown_note (s : Screen) : option NoteLines :=
  match s with
  | TipClaimed _ n => n
  | SignInPrompt _ _ _ n => n
  | _ => None
  end.

(** What the page does once a claim request has ended: the alert, or
    the re-fetch of the projection. *)
Definition is_settlement (a : Action) : bool :=
  match a with
  | Alert _ => true
  | MutatePublicTip => true
  | _ => false
  end.

Definition settlements (t : list Action) : list Action :=
  List.filter is_settlement t.

End ClaimTipView.

(* ================================================================== *)
(** * The gift-composition form: the page around its callbacks *)
(* ================================================================== *)

Module NewTipPage.
Import JS NewTip.

(** [setValue] on the other fields of the form. *)
Definition setValue_currency (c : string) (d : NewTipFormData) : NewTipFormData :=
  {| amount := amount d; amountString := amountString d; currency := c;
     note := note d; expiresIn := expiresIn d; expiryUnit := expiryUnit d;
     tippeeName := tippeeName d; tippeeLocale := tippeeLocale d |}.

Definition setValue_expiryUnit (u : ExpiryUnit) (d : NewTipFormData) : NewTipFormData :=
  {| amount := amount d; amountString := amountString d;
     currency := currency d; note := note d; expiresIn := expiresIn d;
     expiryUnit := u; tippeeName := tippeeName d;
     tippeeLocale := tippeeLocale d |}.

Definition setValue_tippeeLocale (l : string) (d : NewTipFormData) : NewTipFormData :=
  {| amount := amount d; amountString := amountString d;
     currency := currency d; note := note d; expiresIn := expiresIn d;
     expiryUnit := expiryUnit d; tippeeName := tippeeName d;
     tippeeLocale := l |}.

Definition setValue_note (s : string) (d : NewTipFormData) : NewTipFormData :=
  {| amount := amount d; amountString := amountString d;
     currency := currency d; note := Some s; expiresIn := expiresIn d;
     expiryUnit := expiryUnit d; tippeeName := tippeeName d;
     tippeeLocale := tippeeLocale d |}.

Definition setValue_tippeeName (s : string) (d : NewTipFormData) : NewTipFormData :=
  {| amount := amount d; amountString := amountString d;
     currency := currency d; note := note d; expiresIn := expiresIn d;
     expiryUnit := expiryUnit d; tippeeName := Some s;
     tippeeLocale := tippeeLocale d |}.

Definition setValue_expiresIn (n : number) (d : NewTipFormData) : NewTipFormData :=
  {| amount := amount d; amountString := amountString d;
     currency := currency d; note := note d; expiresIn := n;
     expiryUnit := expiryUnit d; tippeeName := tippeeName d;
     tippeeLocale := tippeeLocale d |}.

(** [useExchangeRates] returns another table. *)
Definition setExchangeRates (rates : option (gmap string number))
    (st : State) : State :=
  {| isSubmitting := isSubmitting st; inputMethod := inputMethod st;
     form := form st; exchangeRates := rates; location := location st |}.

(** [setDropdownSelectedCurrency], [setDropdownSelectedExpiryUnit] and
    [setDropdownSelectedTippeeLocale] *)
Definition setDropdownSelectedCurrency (c : string) (st : State) : State :=
  set_form (setValue_currency c) st.

Definition setDropdownSelectedExpiryUnit (u : ExpiryUnit) (st : State) : State :=
  set_form (setValue_expiryUnit u) st.

Definition setDropdownSelectedTippeeLocale (l : string) (st : State) : State :=
  set_form (setValue_tippeeLocale l) st.

(** [SelectOption] of components/CustomSelect, as the page builds it. *)
Record SelectOption := {
  option_value : string;
  option_label : string;
}.

(** [exchangeRateSelectOptions]: one option for each key of the table,
    [None] ([undefined]) while there is no table.  The keys come in the
    order the map lists them, which is not the insertion order
    [Object.keys] follows: only what does not depend on the order is
    stated about the options. *)
Definition exchangeRateSelectOptions (st : State) : option (list SelectOption) :=
  match exchangeRates st with
  | Some rates =>
      Some (map (fun key => {| option_value := key; option_label := key |})
              (map fst (map_to_list rates)))
  | None => None
  end.

(** [altInputMethod] *)
Definition altInputMethod (st : State) : InputMethod :=
  match inputMethod st with
  | fiat => sats
  | sats => fiat
  end.

Definition InputMethod_text (m : InputMethod) : string :=
  match m with
  | fiat => "fiat"
  | sats => "sats"
  end.

(** The unit named after "Amount in":
    [inputMethod === "fiat" ? watchedCurrency : inputMethod]. *)
Definition amountUnit (st : State) : string :=
  match inputMethod st with
  | fiat => currency (form st)
  | sats => InputMethod_text sats
  end.

(** The unit named after "Switch to" on the button:
    [altInputMethod === "fiat" ? watchedCurrency : altInputMethod]. *)
Definition switchUnit (st : State) : string :=
  match altInputMethod st with
  | fiat => currency (form st)
  | sats => InputMethod_text sats
  end.

(** The props of the two price components. *)
Inductive PriceProps :=
  | FiatPrice (cur : string) (exchangeRate : option number) (sats_ : number)
  | SatsPrice (exchangeRate : option number) (fiat_ : number).

Definition price_amount (p : PriceProps) : number :=
  match p with
  | FiatPrice _ _ n => n
  | SatsPrice _ n => n
  end.

(** [!isNaN(watchedAmount) ? watchedAmount : 0] *)
Definition shownAmount (st : State) : number :=
  if negb (isNaN (ToNumber (amount (form st))))
  then ToNumber (amount (form st))
  else 0%float.

(** The price under the amount field: the amount in the other unit. *)
Definition pricePreview (st : State) : PriceProps :=
  match inputMethod st with
  | sats =>
      FiatPrice (currency (form st)) (watchedExchangeRate st) (shownAmount st)
  | fiat => SatsPrice (watchedExchangeRate st) (shownAmount st)
  end.

(** The amount text changes to [text]: the field's [onChange], then the
    render it causes with the effect on [amountString]. *)
Definition typeAmountString (text : string) (st : State) : State :=
  amountStringEffect (Some (amountString (form st)))
    (set_form (setValue_amountString text) st).

(** The page in the browser: the component's state and the creation
    requests that are in flight. *)
Record Page := {
  page_state : State;
  page_inFlight : nat;
}.

(** The amount is a number, and it is the one the amount text reads as
    whenever that text reads as a number. *)
Definition amount_in_step (st : State) : Prop :=
  exists v, amount (form st) = Some v /\ isNaN v = false /\
            (isNaN (parseFloat (amountString (form st))) = false ->
             parseFloat (amountString (form st)) = v).

Section WithLibs.
(** lib/constants, lib/i18n/locales, lib/Routes, lib/utils and date-fns
    are not part of the sources at hand. *)
Variables MIN_TIP_SATS MAX_TIP_SATS : number.
Variable DEFAULT_LOCALE : string.
Variable Routes_tips : string.
Variables getSatsAmount getFiatAmount : number -> number -> number.
Variable calculateFee : number -> number.
Variable Date : Type.
Variable add : Date -> Duration -> Date.

Local Abbreviation M := (Eff.M (Action Date)).

(** The [defaultValues] of [useForm]; the other fields start
    [undefined]. *)
Definition defaultValues : NewTipFormData :=
  {| amount := None; amountString := "1"; currency := "USD"; note := None;
     expiresIn := 3%float; expiryUnit := days; tippeeName := None;
     tippeeLocale := DEFAULT_LOCALE |}.

(** The component before its first render, for what [useExchangeRates]
    has at that time and the path of the page. *)
Definition initialState (rates : option (gmap string number))
    (path : string) : State :=
  {| isSubmitting := false; inputMethod := fiat; form := defaultValues;
     exchangeRates := rates; location := path |}.

(** The page once mounted: the first render has run the effect on
    [amountString].  (The other effect moves the focus, which is no part
    of the state.) *)
Definition mounted (rates : option (gmap string number))
    (path : string) : Page :=
  {| page_state := amountStringEffect None (initialState rates path);
     page_inFlight := 0 |}.

(** The fee row with its price: nothing but the spinner while there is
    no exchange rate. *)
Definition feeRow (st : State) : option (number * PriceProps) :=
  match displayedFee getSatsAmount calculateFee st with
  | Some fee =>
      Some (fee, FiatPrice (currency (form st)) (watchedExchangeRate st) fee)
  | None => None
  end.

(** [onSubmit] up to the first [await] of its async block: the checks,
    the flag, and the call of [fetch]. *)
Definition onSubmit_begin (st : State) (data : NewTipFormData)
    (now : Date) : M unit :=
  match watchedExchangeRate st with
  | Some rate =>
      if truthy rate then
        Eff.when (isSubmitting st) (Eff.throw "Already submitting") ;;
        let satsAmount :=
          match inputMethod st with
          | fiat => getSatsAmount (ToNumber (amount data)) rate
          | sats => ToNumber (amount data)
          end in
        Eff.when (isNaN satsAmount) (Eff.throw "Invalid tip amount") ;;
        Eff.when (lt satsAmount MIN_TIP_SATS)
          (Eff.throw "Tip amount is too small") ;;
        Eff.when (gt satsAmount MAX_TIP_SATS)
          (Eff.throw (too_large_message MAX_TIP_SATS)) ;;
        Eff.when (strict_neq (Math_round satsAmount) satsAmount)
          (Eff.throw "sat amount must be a whole value") ;;
        Eff.emit (SetSubmitting true) ;;
        Eff.emit (Fetch "/api/tipper/tips" "POST"
                    (JSON_stringify
                       (createTipRequest Date add data satsAmount now)))
      else Eff.throw "Exchange rates not loaded"
  | None => Eff.throw "Exchange rates not loaded"
  end.

(** The async block from that [await] on, once the request has ended. *)
Definition submitTip_resume (o : FetchOutcome) : M unit :=
  Eff.try_catch
    (result ← await_fetch Date o;
     let '(ok, statusText, json) := result in
     if ok : bool then
       Eff.emit (ToastSuccess "Tip created") ;;
       id ← await_json_id Date json;
       Eff.emit (RouterPush (Routes_tips ++ "/" ++ id))
     else
       Eff.emit (ToastError ("Failed to create tip: " ++ statusText)))
    (fun error =>
       Eff.emit (ConsoleError error) ;;
       Eff.emit (ToastError "Tip creation failed. Please try again.")) ;;
  Eff.emit (SetSubmitting false).

(** What happens to the page. *)
Inductive Event :=
  | TypeAmount (text : string)
  | ClickSwitch
  | SelectCurrency (c : string)
  | SelectExpiryUnit (u : ExpiryUnit)
  | SelectTippeeLocale (l : string)
  | TypeTippeeName (s : string)
  | TypeNote (s : string)
  | TypeExpiresIn (n : number)
  | RatesChange (rates : option (gmap string number))
  | Submit (now : Date)
  | Settled (o : FetchOutcome).

Definition with_state (pg : Page) (st : State) : Page :=
  {| page_state := st; page_inFlight := page_inFlight pg |}.

(** One event, on the page rendered with the state the event before
    has left.  A change of the amount text and a click on the switch
    button are followed by the render they cause and its effect.  A
    submission ([handleSubmit(onSubmit)] with the values of the form)
    runs [onSubmit] up to its [await]; the request it has sent is then
    in flight, and its end runs the rest of the block. *)
Definition step (pg : Page) (e : Event) : Page * list (Action Date) :=
  let st := page_state pg in
  match e with
  | TypeAmount text => (with_state pg (typeAmountString text st), [])
  | ClickSwitch =>
      (with_state pg (clickToggle getSatsAmount getFiatAmount st), [])
  | SelectCurrency c => (with_state pg (setDropdownSelectedCurrency c st), [])
  | SelectExpiryUnit u =>
      (with_state pg (setDropdownSelectedExpiryUnit u st), [])
  | SelectTippeeLocale l =>
      (with_state pg (setDropdownSelectedTippeeLocale l st), [])
  | TypeTippeeName s => (with_state pg (set_form (setValue_tippeeName s) st), [])
  | TypeNote s => (with_state pg (set_form (setValue_note s) st), [])
  | TypeExpiresIn n => (with_state pg (set_form (setValue_expiresIn n) st), [])
  | RatesChange rates => (with_state pg (setExchangeRates rates st), [])
  | Submit now =>
      let m := onSubmit_begin st (form st) now in
      ({| page_state := perform_all Date st (Eff.trace m);
          page_inFlight :=
            match Eff.outcome m with
            | inr _ => S (page_inFlight pg)
            | inl _ => page_inFlight pg
            end |},
       Eff.trace m)
  | Settled o =>
      match page_inFlight pg with
      | O => (pg, [])
      | S n =>
          let t := Eff.trace (submitTip_resume o) in
          ({| page_state := perform_all Date st t; page_inFlight := n |}, t)
      end
  end.

(** The events of a page lifetime in order, with the actions they
    cause. *)
Fixpoint run (pg : Page) (es : list Event) : Page * list (Action Date) :=
  match es with
  | [] => (pg, [])
  | e :: es' =>
      let (pg1, t1) := step pg e in
      let (pg2, t2) := run pg1 es' in
      (pg2, (t1 ++ t2)%list)
  end.

End WithLibs.

Arguments TypeAmount {Date} text.
Arguments ClickSwitch {Date}.
Arguments SelectCurrency {Date} c.
Arguments SelectExpiryUnit {Date} u.
Arguments SelectTippeeLocale {Date} l.
Arguments TypeTippeeName {Date} s.
Arguments TypeNote {Date} s.
Arguments TypeExpiresIn {Date} n.
Arguments RatesChange {Date} rates.
Arguments Submit {Date} now.
Arguments Settled {Date} o.

Definition is_fetch {Date} (a : Action Date) : bool :=
  match a with
  | Fetch _ _ _ => true
  | _ => false
  end.

(** [setSubmitting(false)]: the end of a submission. *)
Definition is_cleared {Date} (a : Action Date) : bool :=
  match a with
  | SetSubmitting false => true
  | _ => false
  end.

End NewTipPage.

(* ================================================================== *)
(** * A sample configuration, for the examples *)
(* ================================================================== *)

Module Sample.
Import JS NewTip.

Definition MIN_TIP_SATS : number := 1%float.
Definition MAX_TIP_SATS : number := 1000000%float.
Definition MINIMUM_FEE_SATS : number := 10%float.
Definition FEE_PERCENT : number := 1%float.
Definition Routes_tips : string := "/tips".

(** Dates as milliseconds since the epoch, and an [add] over them that
    takes the whole part of the amount and days of 24 hours. *)
Definition add (d : Z) (dur : Duration) : Z :=
  let whole n := scaled (Prim2SF n) / 2 ^ 1074 in
  match dur with
  | (minutes, n) => d + 60000 * whole n
  | (hours, n) => d + 3600000 * whole n
  | (days, n) => d + 86400000 * whole n
  end.

Definition data : NewTipFormData :=
  {| amount := Some 2500%float; amountString := "2500"; currency := "USD";
     note := Some ""; expiresIn := 3%float; expiryUnit := days;
     tippeeName := Some "Hal"; tippeeLocale := "en" |}.

(** The form in base-unit mode, with a rate of 0.0002 USD per sat. *)
Definition page : State :=
  {| isSubmitting := false; inputMethod := sats; form := data;
     exchangeRates := Some {[ "USD" := 0.0002%float ]};
     location := "/tips/new" |}.

(** The same form before the exchange rates have loaded. *)
Definition page_loading : State :=
  {| isSubmitting := false; inputMethod := sats; form := data;
     exchangeRates := None; location := "/tips/new" |}.


(** What submitting the amount [a] from the page [st] gives: the error
    thrown, or nothing. *)
Definition submit (st : State) (a : number) : string + unit :=
  Eff.outcome
    (onSubmit MIN_TIP_SATS MAX_TIP_SATS Routes_tips
       Utils.getSatsAmount Z add st
       (setValue_amount a data) 0
       (Response true "OK" (JsonTip "tip1"))).

(** A tip of Alice's on the claim page, with a note: not claimed, or
    claimed by [tippee]. *)
Definition tip (claimed : bool) (tippee : option string)
  : ClaimTipPage.PublicTip :=
  {| ClaimTipPage.amount := 1000%float; ClaimTipPage.tipperId := "alice";
     ClaimTipPage.tippeeId := tippee; ClaimTipPage.currency := Some "EUR";
     ClaimTipPage.note := Some "Thank you!";
     ClaimTipPage.hasClaimed := claimed;
     ClaimTipPage.tipper_name := Some "Alice";
     ClaimTipPage.tipper_twitterUsername := None |}.

(** A render of the claim page: what SWR has of the tip, and the user
    signed in, if any. *)
Definition visit (t : option ClaimTipPage.PublicTip) (user : option string)
  : ClaimTipPage.Props :=
  {| ClaimTipPage.publicTip := t;
     ClaimTipPage.session :=
       match user with
       | Some u => Some {| ClaimTipPage.user_id := u |}
       | None => None
       end;
     ClaimTipPage.id := Some "tip1"; ClaimTipPage.mutatePublicTip := 0;
     ClaimTipPage.router := 0 |}.

End Sample.

(* ================================================================== *)
(** * Numbers: order, rounding, and results that are never NaN *)
(* ================================================================== *)

Module JSFacts.
Import JS.

Lemma digits2_pos_lt p : Z.pos p < 2 ^ Z.pos (digits2_pos p).
Proof.
  induction p as [p IH|p IH|]; simpl digits2_pos.
  - rewrite Pos2Z.inj_succ, Z.pow_succ_r by lia. lia.
  - rewrite Pos2Z.inj_succ, Z.pow_succ_r by lia. lia.
  - reflexivity.
Qed.

Lemma digits2_pos_ge p : 2 ^ (Z.pos (digits2_pos p) - 1) <= Z.pos p.
Proof.
  induction p as [p IH|p IH|]; simpl digits2_pos.
  - rewrite Pos2Z.inj_succ.
    replace (Z.succ (Z.pos (digits2_pos p)) - 1)
      with (Z.succ (Z.pos (digits2_pos p) - 1)) by lia.
    rewrite Z.pow_succ_r by lia. lia.
  - rewrite Pos2Z.inj_succ.
    replace (Z.succ (Z.pos (digits2_pos p)) - 1)
      with (Z.succ (Z.pos (digits2_pos p) - 1)) by lia.
    rewrite Z.pow_succ_r by lia. lia.
  - simpl. lia.
Qed.

Lemma digits2_pos_shift n p :
  digits2_pos (shift_pos n p) = (digits2_pos p + n)%positive.
Proof.
  unfold shift_pos. induction n as [|n IH] using Pos.peano_ind.
  - simpl. lia.
  - rewrite Pos.iter_succ. simpl. rewrite IH. lia.
Qed.

Lemma valid_finite_bounds s m e :
  valid_binary (S754_finite s m e) = true ->
  -1074 <= e <= 971 /\ Z.pos m < 2 ^ 53 /\ (-1074 < e -> 2 ^ 52 <= Z.pos m).
Proof.
  unfold SpecFloat.valid_binary, bounded, canonical_mantissa, fexp, SpecFloat.emin, prec, emax.
  intros H. apply andb_true_iff in H as [H1 H2].
  apply Z.eqb_eq in H1. apply Z.leb_le in H2.
  pose proof (digits2_pos_lt m) as Hlt.
  pose proof (digits2_pos_ge m) as Hge.
  set (d := Z.pos (digits2_pos m)) in *.
  assert (Hd : d <= 53) by lia.
  split; [lia|]. split.
  - apply Z.lt_le_trans with (1 := Hlt). apply Z.pow_le_mono_r; lia.
  - intros He. assert (d = 53) as -> by lia. exact Hge.
Qed.

Lemma scaled_finite_bound s m e :
  valid_binary (S754_finite s m e) = true ->
  - 2 ^ 2098 < scaled (S754_finite s m e) < 2 ^ 2098.
Proof.
  intros H. destruct (valid_finite_bounds _ _ _ H) as (He & Hm & _).
  assert (P : 0 < 2 ^ (e + 1074) <= 2 ^ 2045).
  { split; [apply Z.pow_pos_nonneg; lia|apply Z.pow_le_mono_r; lia]. }
  assert (E : 2 ^ 2098 = 2 ^ 53 * 2 ^ 2045) by (rewrite <- Z.pow_add_r; [reflexivity|lia|lia]).
  rewrite E. clear E. simpl scaled.
  assert (0 < 2 ^ 53) by (apply Z.pow_pos_nonneg; lia).
  destruct s; nia.
Qed.

Lemma finite_lt_exp m1 e1 m2 e2 :
  valid_binary (S754_finite false m1 e1) = true ->
  valid_binary (S754_finite false m2 e2) = true ->
  e1 < e2 ->
  Z.pos m1 * 2 ^ (e1 + 1074) < Z.pos m2 * 2 ^ (e2 + 1074).
Proof.
  intros V1 V2 L.
  destruct (valid_finite_bounds _ _ _ V1) as (He1 & Hm1 & _).
  destruct (valid_finite_bounds _ _ _ V2) as (He2 & _ & Hm2).
  specialize (Hm2 ltac:(lia)).
  replace (e2 + 1074) with ((e1 + 1074) + (e2 - e1)) by lia.
  rewrite (Z.pow_add_r 2 (e1 + 1074) (e2 - e1)) by lia.
  assert (HA : 0 < 2 ^ (e1 + 1074)) by (apply Z.pow_pos_nonneg; lia).
  assert (HD : 2 ^ 1 <= 2 ^ (e2 - e1)) by (apply Z.pow_le_mono_r; lia).
  change (2 ^ 1) with 2 in HD.
  change (2 ^ 53) with (2 * 2 ^ 52) in Hm1.
  generalize dependent (2 ^ (e2 - e1)). generalize dependent (2 ^ (e1 + 1074)).
  generalize dependent (2 ^ 52). intros T Hm1 Hm2 A HA D HD.
  apply Z.lt_le_trans with (2 * T * A).
  - apply Z.mul_lt_mono_pos_r; assumption.
  - assert (H : 2 * T <= Z.pos m2 * D) by nia.
    replace (Z.pos m2 * (A * D)) with (Z.pos m2 * D * A) by ring.
    apply Z.mul_le_mono_nonneg_r; lia.
Qed.

Lemma SFcompare_scaled f1 f2 :
  valid_binary f1 = true -> valid_binary f2 = true ->
  f1 <> S754_nan -> f2 <> S754_nan ->
  SFcompare f1 f2 = Some (scaled f1 ?= scaled f2).
Proof.
  intros V1 V2 N1 N2.
  assert (B : forall s m e, valid_binary (S754_finite s m e) = true ->
            0 < 2 ^ (e + 1074)).
  { intros s m e V. destruct (valid_finite_bounds _ _ _ V) as (He & _).
    apply Z.pow_pos_nonneg; lia. }
  destruct f1 as [s1|s1| |s1 m1 e1], f2 as [s2|s2| |s2 m2 e2];
    try congruence;
    try pose proof (scaled_finite_bound _ _ _ V1) as B1;
    try pose proof (scaled_finite_bound _ _ _ V2) as B2;
    try pose proof (B _ _ _ V1) as P1;
    try pose proof (B _ _ _ V2) as P2;
    unfold SFcompare; f_equal; symmetry.
  1-7: try (destruct s1); try (destruct s2);
    first [ reflexivity
          | apply Z.compare_lt_iff; unfold scaled in *; lia
          | apply Z.compare_gt_iff; unfold scaled in *; lia
          | apply Z.compare_lt_iff; unfold scaled at 1; lia
          | apply Z.compare_gt_iff; unfold scaled at 1; lia
          | apply Z.compare_lt_iff; unfold scaled at 2; lia
          | apply Z.compare_gt_iff; unfold scaled at 2; lia ].
  - assert (V1' : valid_binary (S754_finite false m1 e1) = true) by exact V1.
    assert (V2' : valid_binary (S754_finite false m2 e2) = true) by exact V2.
    unfold scaled. clear B1 B2.
    destruct s1, s2.
    + destruct (Z.compare_spec e1 e2) as [E|E|E].
      * subst e2. rewrite Pos.compare_cont_spec. unfold Pos.switch_Eq.
        rewrite <- Zmult_compare_compat_r by lia.
        change (Z.neg m1 ?= Z.neg m2) with (CompOpp (m1 ?= m2)%positive).
        now destruct (m1 ?= m2)%positive.
      * apply Z.compare_gt_iff. pose proof (finite_lt_exp _ _ _ _ V1' V2' E). lia.
      * apply Z.compare_lt_iff. pose proof (finite_lt_exp _ _ _ _ V2' V1' E). lia.
    + apply Z.compare_lt_iff. lia.
    + apply Z.compare_gt_iff. lia.
    + destruct (Z.compare_spec e1 e2) as [E|E|E].
      * subst e2. rewrite Pos.compare_cont_spec. unfold Pos.switch_Eq.
        rewrite <- Zmult_compare_compat_r by lia.
        change (Z.pos m1 ?= Z.pos m2) with (m1 ?= m2)%positive.
        now destruct (m1 ?= m2)%positive.
      * apply Z.compare_lt_iff. apply finite_lt_exp; assumption.
      * apply Z.compare_gt_iff. apply finite_lt_exp; assumption.
Qed.

Lemma roundZ_mono a b : a <= b -> roundZ a <= roundZ b.
Proof.
  intros H. unfold roundZ.
  assert (0 < 2 ^ 1074) by (apply Z.pow_pos_nonneg; lia).
  apply Z.mul_le_mono_nonneg_r; [lia|].
  apply Z.div_le_mono; lia.
Qed.

Lemma roundZ_multiple q : roundZ (q * 2 ^ 1074) = q * 2 ^ 1074.
Proof.
  unfold roundZ. f_equal.
  assert (P : 0 < 2 ^ 1074) by (apply Z.pow_pos_nonneg; lia).
  rewrite Z.add_comm, Z.div_add by lia.
  rewrite Z.div_small; [reflexivity|].
  split; [apply Z.pow_nonneg; lia|apply Z.pow_lt_mono_r; lia].
Qed.

Lemma scaled_SF_of_int s p :
  scaled (SF_of_int s p) = (if s then Z.neg p else Z.pos p) * 2 ^ 1074.
Proof.
  unfold SF_of_int.
  pose proof (digits2_pos_ge p) as Hge.
  destruct (prec - Z.pos (digits2_pos p)) as [|sh|sh] eqn:E;
    unfold scaled; try reflexivity.
  assert (Hsh : Z.pos sh <= 52) by (unfold prec in E; lia).
  rewrite <- Pos2Z.opp_pos.
  replace (2 ^ 1074) with (2 ^ Z.pos sh * 2 ^ (- Z.pos sh + 1074))
    by (rewrite <- Z.pow_add_r by lia; f_equal; lia).
  assert (Z.pos (shift_pos sh p) = Z.pos p * 2 ^ Z.pos sh) as Hs.
  { rewrite shift_pos_correct, Z.pow_pos_fold. ring. }
  destruct s.
  - rewrite <- !Pos2Z.opp_pos, Hs. ring.
  - rewrite Hs. ring.
Qed.

Lemma valid_SF_of_int s p :
  Z.pos p < 2 ^ 53 -> valid_binary (SF_of_int s p) = true.
Proof.
  intros H. unfold SF_of_int.
  pose proof (digits2_pos_ge p) as Hge.
  assert (Hd : Z.pos (digits2_pos p) <= 53).
  { destruct (Z.le_gt_cases (Z.pos (digits2_pos p)) 53) as [L|L]; [exact L|].
    exfalso. assert (2 ^ 53 <= 2 ^ (Z.pos (digits2_pos p) - 1))
      by (apply Z.pow_le_mono_r; lia). lia. }
  destruct (prec - Z.pos (digits2_pos p)) as [|sh|sh] eqn:E;
    unfold prec in E; try lia;
    unfold SpecFloat.valid_binary, bounded, canonical_mantissa, fexp,
      SpecFloat.emin, prec, emax;
    apply andb_true_iff; split; try (apply Z.leb_le; lia);
    apply Z.eqb_eq.
  - lia.
  - rewrite digits2_pos_shift. lia.
Qed.

Lemma round_SF_scaled f :
  valid_binary f = true -> f <> S754_nan ->
  valid_binary (round_SF f) = true /\ round_SF f <> S754_nan /\
  scaled (round_SF f) = roundZ (scaled f).
Proof.
  intros V N. destruct f as [s|s| |s m e]; try congruence.
  - split; [reflexivity|]. split; [discriminate|]. reflexivity.
  - split; [reflexivity|]. split; [discriminate|].
    unfold round_SF, scaled.
    replace (2 ^ 2098) with (2 ^ 1024 * 2 ^ 1074)
      by (rewrite <- Z.pow_add_r by lia; reflexivity).
    destruct s.
    + rewrite <- Z.mul_opp_l. now rewrite roundZ_multiple.
    + now rewrite roundZ_multiple.
  - destruct (valid_finite_bounds _ _ _ V) as (He & Hm & _).
    destruct e as [|e|k].
    + split; [exact V|]. split; [discriminate|].
      unfold round_SF, scaled. now rewrite roundZ_multiple.
    + split; [exact V|]. split; [discriminate|].
      unfold round_SF, scaled.
      rewrite Z.pow_add_r by lia. rewrite Z.mul_assoc.
      now rewrite roundZ_multiple.
    + set (sm := if s then Z.neg m else Z.pos m).
      set (q := (sm + 2 ^ (Z.pos k - 1)) / 2 ^ Z.pos k).
      assert (Pk : 0 < 2 ^ Z.pos k) by (apply Z.pow_pos_nonneg; lia).
      assert (Pk1 : 0 < 2 ^ (Z.pos k - 1)) by (apply Z.pow_pos_nonneg; lia).
      assert (Ek : 2 ^ Z.pos k = 2 * 2 ^ (Z.pos k - 1)).
      { rewrite <- Z.pow_succ_r by lia. f_equal. lia. }
      assert (Hsm : - 2 ^ 53 < sm < 2 ^ 53) by (unfold sm; destruct s; lia).
      assert (Hq : - 2 ^ 53 < q < 2 ^ 53).
      { unfold q. split.
        - apply Z.lt_le_trans with (- 2 ^ 53 + 1); [lia|].
          apply Z.div_le_lower_bound; [lia|].
          assert (2 ^ Z.pos k * (- 2 ^ 53 + 1) <= - 2 ^ 53 + 1) by nia. lia.
        - apply Z.div_lt_upper_bound; [lia|].
          assert (2 ^ 53 * 1 <= 2 ^ 53 * 2 ^ (Z.pos k - 1)) by (apply Z.mul_le_mono_nonneg_l; lia).
          nia. }
      assert (S : scaled (S754_finite s m (Z.neg k)) = sm * 2 ^ (Z.neg k + 1074))
        by reflexivity.
      assert (R : roundZ (scaled (S754_finite s m (Z.neg k))) = q * 2 ^ 1074).
      { rewrite S. unfold roundZ. f_equal. unfold q.
        set (c := 2 ^ (Z.neg k + 1074)).
        assert (Pc : 0 < c) by (apply Z.pow_pos_nonneg; lia).
        replace (2 ^ 1073) with (2 ^ (Z.pos k - 1) * c)
          by (unfold c; rewrite <- Z.pow_add_r by lia; f_equal; lia).
        replace (2 ^ 1074) with (2 ^ Z.pos k * c)
          by (unfold c; rewrite <- Z.pow_add_r by lia; f_equal; lia).
        rewrite <- Z.mul_add_distr_r.
        apply Z.div_mul_cancel_r; lia. }
      rewrite R. unfold round_SF. fold sm. fold q.
      destruct q as [|p|p] eqn:Eq.
      * split; [reflexivity|]. split; [discriminate|]. reflexivity.
      * split; [apply valid_SF_of_int; lia|].
        split; [unfold SF_of_int; destruct (prec - _); discriminate|].
        apply scaled_SF_of_int.
      * split; [apply valid_SF_of_int; lia|].
        split; [unfold SF_of_int; destruct (prec - _); discriminate|].
        apply scaled_SF_of_int.
Qed.

(** *** Rounding to binary64 never makes a NaN *)

Lemma shr_1_nonneg r : 0 <= shr_m r -> 0 <= shr_m (shr_1 r).
Proof.
  destruct r as [m b c]. simpl. destruct m as [|[p|p|]|p]; simpl; lia.
Qed.

Lemma iter_shr_1_nonneg n : forall r,
  0 <= shr_m r -> 0 <= shr_m (SpecFloat.iter_pos shr_1 n r).
Proof.
  induction n as [n IH|n IH|]; intros r H; simpl.
  - apply IH, IH, shr_1_nonneg, H.
  - apply IH, IH, H.
  - apply shr_1_nonneg, H.
Qed.

Lemma shr_fexp_nonneg m e l :
  0 <= m -> 0 <= shr_m (fst (shr_fexp prec emax m e l)).
Proof.
  intros H. unfold shr_fexp, shr.
  assert (0 <= shr_m (shr_record_of_loc m l))
    by (destruct l as [|[| |]]; exact H).
  destruct (fexp _ _ _ - e); simpl; [assumption| |assumption].
  now apply iter_shr_1_nonneg.
Qed.

Lemma round_nearest_even_nonneg m l : 0 <= m -> 0 <= round_nearest_even m l.
Proof.
  intros H. destruct l as [|[| |]]; simpl; try lia.
  destruct (Z.even m); lia.
Qed.

Lemma binary_round_aux_not_nan s m e l :
  0 <= m -> binary_round_aux prec emax s m e l <> S754_nan.
Proof.
  intros H. unfold binary_round_aux.
  pose proof (shr_fexp_nonneg m e l H) as H1.
  destruct (shr_fexp prec emax m e l) as [r1 e1]. simpl in H1.
  pose proof (shr_fexp_nonneg _ e1 loc_Exact
                (round_nearest_even_nonneg _ (loc_of_shr_record r1) H1)) as H2.
  destruct (shr_fexp prec emax _ e1 loc_Exact) as [r2 e2]. simpl in H2.
  destruct (shr_m r2); [discriminate| |lia].
  destruct (e2 <=? emax - prec); discriminate.
Qed.

Lemma SFmul_finite_not_nan f s m e :
  f <> S754_nan -> SF64mul f (S754_finite s m e) <> S754_nan.
Proof.
  intros N. destruct f as [s1|s1| |s1 m1 e1]; try congruence;
    try discriminate.
  apply binary_round_aux_not_nan. lia.
Qed.

Lemma SFdiv_finite_not_nan f s m e :
  f <> S754_nan -> SF64div f (S754_finite s m e) <> S754_nan.
Proof.
  intros N. destruct f as [s1|s1| |s1 m1 e1]; try congruence;
    try discriminate.
  unfold SF64div, SFdiv, SFdiv_core_binary.
  set (m' := match _ - _ with Z.pos _ => Z.shiftl _ _ | Z0 => _ | Z.neg _ => 0 end).
  assert (Hm : 0 <= m').
  { unfold m'. destruct (_ - _); try lia. apply Z.shiftl_nonneg. lia. }
  pose proof (Z.div_pos m' (Z.pos m) Hm ltac:(lia)) as Hq.
  unfold Z.div in Hq. destruct (Z.div_eucl m' (Z.pos m)) as [q r].
  apply binary_round_aux_not_nan. exact Hq.
Qed.

(** *** Numbers through their specification *)

Lemma isNaN_spec x : isNaN x = true <-> Prim2SF x = S754_nan.
Proof.
  unfold isNaN, is_nan. rewrite FloatAxioms.eqb_spec.
  pose proof (Prim2SF_valid x) as V. unfold SFeqb.
  destruct (Prim2SF x) as [s|s| |s m e] eqn:E; simpl.
  - split; discriminate.
  - destruct s; split; discriminate.
  - split; reflexivity.
  - rewrite Z.compare_refl, Pos.compare_cont_refl.
    destruct s; split; discriminate.
Qed.

Lemma isNaN_false x : isNaN x = false <-> Prim2SF x <> S754_nan.
Proof.
  split.
  - intros H E. apply isNaN_spec in E. congruence.
  - intros H. destruct (isNaN x) eqn:E; [|reflexivity].
    apply isNaN_spec in E. contradiction.
Qed.

Lemma compare_scaled x y :
  isNaN x = false -> isNaN y = false ->
  SFcompare (Prim2SF x) (Prim2SF y) =
  Some (scaled (Prim2SF x) ?= scaled (Prim2SF y)).
Proof.
  intros Nx Ny. apply SFcompare_scaled;
    auto using Prim2SF_valid; now apply isNaN_false.
Qed.

Lemma leb_scaled x y :
  isNaN x = false -> isNaN y = false ->
  PrimFloat.leb x y = (scaled (Prim2SF x) <=? scaled (Prim2SF y)).
Proof.
  intros Nx Ny. rewrite FloatAxioms.leb_spec. unfold SFleb.
  rewrite compare_scaled by assumption. unfold Z.leb.
  now destruct (_ ?= _).
Qed.

Lemma ltb_scaled x y :
  isNaN x = false -> isNaN y = false ->
  PrimFloat.ltb x y = (scaled (Prim2SF x) <? scaled (Prim2SF y)).
Proof.
  intros Nx Ny. rewrite FloatAxioms.ltb_spec. unfold SFltb.
  rewrite compare_scaled by assumption. unfold Z.ltb.
  now destruct (_ ?= _).
Qed.

Lemma eqb_scaled x y :
  isNaN x = false -> isNaN y = false ->
  PrimFloat.eqb x y = (scaled (Prim2SF x) =? scaled (Prim2SF y)).
Proof.
  intros Nx Ny. rewrite FloatAxioms.eqb_spec. unfold SFeqb.
  rewrite compare_scaled by assumption.
  destruct (Z.compare_spec (scaled (Prim2SF x)) (scaled (Prim2SF y)));
    symmetry; [apply Z.eqb_eq|apply Z.eqb_neq|apply Z.eqb_neq]; lia.
Qed.

Lemma leb_not_NaN x y :
  PrimFloat.leb x y = true -> isNaN x = false /\ isNaN y = false.
Proof.
  rewrite FloatAxioms.leb_spec. unfold SFleb. intros H.
  split; apply isNaN_false; intros E; rewrite E in H;
    [|destruct (Prim2SF x)]; discriminate.
Qed.

Lemma eqb_not_NaN x y :
  PrimFloat.eqb x y = true -> isNaN x = false /\ isNaN y = false.
Proof.
  rewrite FloatAxioms.eqb_spec. unfold SFeqb. intros H.
  split; apply isNaN_false; intros E; rewrite E in H;
    [|destruct (Prim2SF x)]; discriminate.
Qed.

Lemma Math_round_scaled x :
  isNaN x = false ->
  isNaN (Math_round x) = false /\
  scaled (Prim2SF (Math_round x)) = roundZ (scaled (Prim2SF x)).
Proof.
  intros N. apply isNaN_false in N.
  destruct (round_SF_scaled _ (Prim2SF_valid x) N) as (V & N' & S).
  unfold Math_round. rewrite isNaN_false, Prim2SF_SF2Prim by exact V.
  split; assumption.
Qed.

Lemma not_ltb_leb x y :
  isNaN x = false -> isNaN y = false ->
  negb (PrimFloat.ltb x y) = PrimFloat.leb y x.
Proof.
  intros Nx Ny. rewrite ltb_scaled, leb_scaled by assumption.
  now rewrite Z.leb_antisym.
Qed.

Lemma Math_max_ge x y :
  isNaN x = false -> isNaN y = false ->
  isNaN (Math_max x y) = false /\
  scaled (Prim2SF x) <= scaled (Prim2SF (Math_max x y)).
Proof.
  intros Nx Ny. unfold Math_max. fold (isNaN x) (isNaN y).
  rewrite Nx, Ny, !ltb_scaled by assumption.
  destruct (Z.ltb_spec (scaled (Prim2SF x)) (scaled (Prim2SF y))).
  - split; [assumption|lia].
  - destruct (Z.ltb_spec (scaled (Prim2SF y)) (scaled (Prim2SF x))).
    + split; [assumption|lia].
    + destruct (get_sign x); split; try assumption; lia.
Qed.

Lemma positive_finite P :
  PrimFloat.ltb 0 P = true -> PrimFloat.ltb P infinity = true ->
  exists m e, Prim2SF P = S754_finite false m e.
Proof.
  rewrite !FloatAxioms.ltb_spec.
  change (Prim2SF 0) with (S754_zero false).
  change (Prim2SF infinity) with (S754_infinity false).
  destruct (Prim2SF P) as [s|[|]| |[|] m e]; try discriminate.
  intros _ _. eauto.
Qed.

Section Fee.
Variables MINIMUM_FEE_SATS FEE_PERCENT : number.
Hypothesis minimum_whole :
  strict_eq (Math_round MINIMUM_FEE_SATS) MINIMUM_FEE_SATS = true.
Hypothesis percent_positive : lt 0%float FEE_PERCENT = true.
Hypothesis percent_finite : lt FEE_PERCENT infinity = true.

Lemma share_not_NaN amount :
  isNaN amount = false ->
  isNaN (amount * FEE_PERCENT / 100)%float = false.
Proof using percent_positive percent_finite.
  intros N. apply isNaN_false in N. apply isNaN_false.
  rewrite div_spec, mul_spec.
  destruct (positive_finite _ percent_positive percent_finite)
    as (m & e & ->).
  assert (H100 : exists m e, Prim2SF 100 = S754_finite false m e)
    by (vm_compute; eauto).
  destruct H100 as (m' & e' & ->).
  apply SFdiv_finite_not_nan, SFmul_finite_not_nan, N.
Qed.

Lemma calculateFee_at_least_minimum amount :
  isNaN amount = false ->
  isNaN (Utils.calculateFee MINIMUM_FEE_SATS FEE_PERCENT amount) = false /\
  PrimFloat.leb MINIMUM_FEE_SATS
    (Utils.calculateFee MINIMUM_FEE_SATS FEE_PERCENT amount) = true.
Proof using All.
  intros N. unfold Utils.calculateFee.
  destruct (eqb_not_NaN _ _ minimum_whole) as [_ NM].
  pose proof (share_not_NaN amount N) as NS.
  destruct (Math_max_ge _ _ NM NS) as [NX LX].
  destruct (Math_round_scaled _ NX) as [NR SR].
  destruct (Math_round_scaled _ NM) as [NRM SRM].
  split; [exact NR|].
  rewrite leb_scaled, SR by assumption. apply Z.leb_le.
  unfold strict_eq in minimum_whole.
  rewrite eqb_scaled in minimum_whole by assumption.
  apply Z.eqb_eq in minimum_whole.
  rewrite <- minimum_whole at 1. rewrite SRM.
  apply roundZ_mono, LX.
Qed.
End Fee.
End JSFacts.

(* ================================================================== *)
(** * Numbers as text: [parseFloat] reads [toString] back *)
(* ================================================================== *)

Module TextFacts.
Import JS JSFacts.

(** *** A Number's own mantissa and exponent round to it *)

Lemma iter_shr_1_shift n : forall m,
  SpecFloat.iter_pos shr_1 n
    {| shr_m := Z.pos (shift_pos n m); shr_r := false; shr_s := false |} =
  {| shr_m := Z.pos m; shr_r := false; shr_s := false |}.
Proof.
  unfold shift_pos.
  induction n as [n IH|n IH|]; intros m; simpl.
  - rewrite !IH. reflexivity.
  - rewrite !IH. reflexivity.
  - reflexivity.
Qed.

Lemma binary_round_aux_exact s m e :
  valid_binary (S754_finite s m e) = true ->
  binary_round_aux prec emax s (Z.pos m) e loc_Exact = S754_finite s m e.
Proof.
  intros V.
  assert (C : fexp prec emax (Z.pos (digits2_pos m) + e) = e /\
              (e <=? emax - prec) = true).
  { unfold SpecFloat.valid_binary, bounded, canonical_mantissa in V.
    apply andb_true_iff in V as [V1 V2]. apply Z.eqb_eq in V1. easy. }
  destruct C as [C1 C2].
  unfold binary_round_aux, shr_fexp. cbn [Zdigits2 shr_record_of_loc].
  rewrite C1, Z.sub_diag. cbn [shr shr_m loc_of_shr_record round_nearest_even Zdigits2 shr_record_of_loc].
  rewrite C1, Z.sub_diag. cbn [shr shr_m]. now rewrite C2.
Qed.

Lemma binary_round_shifted s m e t :
  valid_binary (S754_finite s m e) = true ->
  binary_round prec emax s (shift_pos t m) (e - Z.pos t) = S754_finite s m e.
Proof.
  intros V.
  assert (C : fexp prec emax (Z.pos (digits2_pos m) + e) = e /\
              (e <=? emax - prec) = true).
  { unfold SpecFloat.valid_binary, bounded, canonical_mantissa in V.
    apply andb_true_iff in V as [V1 V2]. apply Z.eqb_eq in V1. easy. }
  destruct C as [C1 C2].
  assert (D : Z.pos (digits2_pos (shift_pos t m)) + (e - Z.pos t) =
              Z.pos (digits2_pos m) + e)
    by (rewrite digits2_pos_shift; lia).
  unfold binary_round. rewrite D, C1. unfold shl_align.
  replace (e - (e - Z.pos t)) with (Z.pos t) by lia.
  unfold binary_round_aux, shr_fexp. cbn [Zdigits2 shr_record_of_loc].
  rewrite D, C1.
  replace (e - (e - Z.pos t)) with (Z.pos t) by lia.
  cbn [shr]. rewrite iter_shr_1_shift.
  cbn [shr_m loc_of_shr_record round_nearest_even Zdigits2 shr_record_of_loc].
  replace (e - Z.pos t + Z.pos t) with e by lia.
  rewrite C1, Z.sub_diag. cbn [shr shr_m]. now rewrite C2.
Qed.

(** [binary_normalize] on a mantissa [m * 2^t] with the exponent lowered
    by [t]. *)
Lemma binary_normalize_exact m e t M :
  valid_binary (S754_finite false m e) = true ->
  0 <= t -> M = Z.pos m * 2 ^ t ->
  binary_normalize prec emax M (e - t) false = S754_finite false m e.
Proof.
  intros V Ht ->. destruct t as [|t|t]; [| |lia].
  - rewrite Z.pow_0_r, Z.mul_1_r, Z.sub_0_r. simpl binary_normalize.
    unfold binary_round.
    assert (C : fexp prec emax (Z.pos (digits2_pos m) + e) = e).
    { unfold SpecFloat.valid_binary, bounded, canonical_mantissa in V.
      apply andb_true_iff in V as [V1 V2]. now apply Z.eqb_eq in V1. }
    rewrite C. unfold shl_align. rewrite Z.sub_diag.
    now apply binary_round_aux_exact.
  - replace (Z.pos m * 2 ^ Z.pos t) with (Z.pos (shift_pos t m))
      by (rewrite shift_pos_correct, Z.pow_pos_fold; ring).
    simpl binary_normalize. now apply binary_round_shifted.
Qed.

Lemma div_eucl_pair a b : Z.div_eucl a b = (a / b, a mod b).
Proof.
  unfold Z.div, Z.modulo. now destruct (Z.div_eucl a b).
Qed.

Lemma valid_false s m e :
  valid_binary (S754_finite s m e) = true ->
  valid_binary (S754_finite false m e) = true.
Proof. easy. Qed.

(** *** The full decimal expansion of a Number reads back as it *)

Lemma exact_decimal_reads_back m e :
  valid_binary (S754_finite false m e) = true ->
  0 < fst (exact_decimal m e) /\
  decimal_to_SF false (Z.to_pos (fst (exact_decimal m e)))
    (snd (exact_decimal m e)) = S754_finite false m e.
Proof.
  intros V. destruct (valid_finite_bounds _ _ _ V) as (He & Hm & _).
  destruct e as [|e|p].
  - (* the integer m *)
    cbn [exact_decimal fst snd]. rewrite Z.mul_1_r. split; [lia|].
    unfold decimal_to_SF. cbn [Z.to_pos].
    assert (L : 0 <= Z.log2 (Z.pos m) < 53).
    { split; [apply Z.log2_nonneg|]. apply Z.log2_lt_pow2; lia. }
    replace (400 <? Z.log2 (Z.pos m) / 4 + 0) with false
      by (symmetry; apply Z.ltb_ge; Z.to_euclidean_division_equations; lia).
    replace ((Z.log2 (Z.pos m) + 1) / 3 + 1 + 0 <? -400) with false
      by (symmetry; apply Z.ltb_ge; Z.to_euclidean_division_equations; lia).
    apply (binary_normalize_exact m 0 0); [exact V|lia|].
    rewrite Z.pow_0_r. ring.
  - (* the integer m * 2^e *)
    cbn [exact_decimal fst snd].
    assert (P : 0 < 2 ^ Z.pos e) by (apply Z.pow_pos_nonneg; lia).
    set (d := Z.pos m * 2 ^ Z.pos e).
    assert (Hd : 0 < d) by (unfold d; lia).
    split; [exact Hd|].
    unfold decimal_to_SF. rewrite Z2Pos.id by exact Hd.
    assert (L : 0 <= Z.log2 d < 1024).
    { split; [apply Z.log2_nonneg|]. apply Z.log2_lt_pow2; [exact Hd|].
      unfold d. replace (2 ^ 1024) with (2 ^ 53 * 2 ^ 971) by reflexivity.
      assert (2 ^ Z.pos e <= 2 ^ 971) by (apply Z.pow_le_mono_r; lia).
      assert (0 < 2 ^ 53) by (apply Z.pow_pos_nonneg; lia).
      nia. }
    replace (400 <? Z.log2 d / 4 + 0) with false
      by (symmetry; apply Z.ltb_ge; Z.to_euclidean_division_equations; lia).
    replace ((Z.log2 d + 1) / 3 + 1 + 0 <? -400) with false
      by (symmetry; apply Z.ltb_ge; Z.to_euclidean_division_equations; lia).
    replace 0 with (Z.pos e - Z.pos e) at 2 by lia.
    apply binary_normalize_exact; [exact V|lia|].
    rewrite Z.pow_0_r. unfold d. ring.
  - (* m / 2^p, that is (m * 5^p) / 10^p *)
    cbn [exact_decimal fst snd].
    assert (P5 : 0 < 5 ^ Z.pos p) by (apply Z.pow_pos_nonneg; lia).
    assert (P2 : 0 < 2 ^ Z.pos p) by (apply Z.pow_pos_nonneg; lia).
    assert (E10 : 10 ^ Z.pos p = 2 ^ Z.pos p * 5 ^ Z.pos p)
      by (rewrite <- Z.pow_mul_l; reflexivity).
    set (d := Z.pos m * 5 ^ Z.pos p).
    assert (Hd : 0 < d) by (unfold d; lia).
    split; [exact Hd|].
    unfold decimal_to_SF. rewrite Z2Pos.id by exact Hd.
    (* the size of 5^p and of d *)
    assert (L5 : 2 * Z.pos p <= Z.log2 (5 ^ Z.pos p) < 3 * Z.pos p).
    { split.
      - apply Z.log2_le_pow2; [exact P5|].
        rewrite Z.pow_mul_r by lia. apply Z.pow_le_mono_l. simpl. lia.
      - apply Z.log2_lt_pow2; [exact P5|].
        rewrite Z.pow_mul_r by lia. apply Z.pow_lt_mono_l; simpl; lia. }
    assert (Lm : 0 <= Z.log2 (Z.pos m) < 53).
    { split; [apply Z.log2_nonneg|]. apply Z.log2_lt_pow2; lia. }
    assert (Ld : Z.log2 (5 ^ Z.pos p) <= Z.log2 d <=
                 Z.log2 (Z.pos m) + Z.log2 (5 ^ Z.pos p) + 1).
    { split.
      - apply Z.log2_le_mono. unfold d. nia.
      - unfold d. apply Z.log2_mul_above; lia. }
    assert (LD : Z.pos p + Z.log2 (5 ^ Z.pos p) <= Z.log2 (10 ^ Z.pos p)).
    { rewrite E10. rewrite <- (Z.log2_pow2 (Z.pos p)) at 1 by lia.
      apply Z.log2_mul_below; lia. }
    replace (400 <? Z.log2 d / 4 + Z.neg p) with false
      by (symmetry; apply Z.ltb_ge; Z.to_euclidean_division_equations; lia).
    replace ((Z.log2 d + 1) / 3 + 1 + Z.neg p <? -400) with false
      by (symmetry; apply Z.ltb_ge; Z.to_euclidean_division_equations; lia).
    set (sh := Z.max 0 (64 + Z.log2 (10 ^ Z.pos p) - Z.log2 d)).
    assert (Hsh : Z.pos p + 11 <= sh) by (unfold sh; lia).
    assert (Q : d * 2 ^ sh = Z.pos m * 2 ^ (sh - Z.pos p) * 10 ^ Z.pos p).
    { unfold d. rewrite E10.
      replace sh with ((sh - Z.pos p) + Z.pos p) at 1 by lia.
      rewrite Z.pow_add_r by lia. ring. }
    rewrite div_eucl_pair, Q, Z.div_mul, Z.mod_mul by lia.
    cbn [Z.eqb]. rewrite Z.add_0_r.
    replace (- sh - 1) with (Z.neg p - (sh - Z.pos p + 1)) by lia.
    apply binary_normalize_exact; [exact V|lia|].
    rewrite (Z.pow_add_r 2 (sh - Z.pos p) 1) by lia. simpl (2 ^ 1). ring.
Qed.

Lemma SFeqb_finite_eq f m e :
  SFeqb f (S754_finite false m e) = true -> f = S754_finite false m e.
Proof.
  unfold SFeqb, SFcompare.
  destruct f as [s|s| |s m1 e1]; try discriminate.
  - destruct s; discriminate.
  - destruct s; [discriminate|].
    destruct (Z.compare_spec e1 e) as [E|E|E]; try discriminate.
    rewrite Pos.compare_cont_spec. unfold Pos.switch_Eq.
    destruct (Pos.compare_spec m1 m) as [M|M|M]; try discriminate.
    now subst.
Qed.

Lemma reads_back_true m e c :
  reads_back m e c = true ->
  0 < fst c /\
  decimal_to_SF false (Z.to_pos (fst c)) (snd c) = S754_finite false m e.
Proof.
  unfold reads_back. intros H. apply andb_true_iff in H as [H1 H2].
  split; [now apply Z.ltb_lt|now apply SFeqb_finite_eq].
Qed.

(** The digits chosen for a Number read back as it. *)
Lemma shortest_digits_reads_back m e :
  valid_binary (S754_finite false m e) = true ->
  forall fuel k A B n,
    let c := shortest_digits fuel k m e A B n in
    0 < fst c /\
    decimal_to_SF false (Z.to_pos (fst c)) (snd c) = S754_finite false m e.
Proof.
  intros V. induction fuel as [|f IH]; intros k A B n; cbn [shortest_digits];
    destruct (if n <=? k then _ else _) as [num den];
    destruct (reads_back m e (candidate k n (num / den))) eqn:R1;
    destruct (reads_back m e (candidate k n (num / den + 1))) eqn:R2;
    cbv zeta;
    try (destruct (match 2 * (num mod den) ?= den with
                   | Eq => _ | Lt => _ | Gt => _ end));
    try (now apply reads_back_true);
    try (now apply exact_decimal_reads_back).
  apply IH.
Qed.

(** *** Digit strings *)

Lemma append_cons c (a b : string) : String c a ++ b = String c (a ++ b).
Proof. reflexivity. Qed.

Lemma append_nil (b : string) : "" ++ b = b.
Proof. reflexivity. Qed.

Lemma take_digits_app a : forall acc len rest,
  all_digits a = true -> ends_digits rest = true ->
  take_digits acc len (a ++ rest) =
    (digits_value acc a, len + Z.of_nat (String.length a), rest).
Proof.
  induction a as [|c a IH]; intros acc len rest A R.
  - rewrite append_nil. cbn [digits_value String.length]. rewrite Z.add_0_r.
    destruct rest as [|c r]; [reflexivity|].
    cbn [take_digits]. cbn [ends_digits] in R.
    apply negb_true_iff in R. now rewrite R.
  - cbn [all_digits] in A. apply andb_true_iff in A as [A1 A2].
    rewrite append_cons. cbn [take_digits digits_value String.length].
    rewrite A1. rewrite IH by assumption. f_equal. f_equal. lia.
Qed.

Lemma take_digits_all a acc len :
  all_digits a = true ->
  take_digits acc len a =
    (digits_value acc a, len + Z.of_nat (String.length a), "").
Proof.
  intros A. rewrite <- (take_digits_app a acc len "" A eq_refl).
  f_equal. clear A. induction a as [|c a IH]; [reflexivity|].
  rewrite append_cons. now rewrite <- IH.
Qed.

Lemma digits_value_app a : forall acc b,
  digits_value acc (a ++ b) = digits_value (digits_value acc a) b.
Proof.
  induction a as [|c a IH]; intros acc b; [reflexivity|].
  rewrite append_cons. cbn [digits_value]. apply IH.
Qed.

Lemma all_digits_app a b :
  all_digits (a ++ b) = all_digits a && all_digits b.
Proof.
  induction a as [|c a IH]; [reflexivity|].
  rewrite append_cons. cbn [all_digits]. rewrite IH. now rewrite andb_assoc.
Qed.

Lemma length_app (a b : string) :
  String.length (a ++ b) = (String.length a + String.length b)%nat.
Proof.
  induction a as [|c a IH]; [reflexivity|].
  rewrite append_cons. cbn [String.length]. now rewrite IH.
Qed.

Lemma app_assoc_string (a b c : string) : (a ++ b) ++ c = a ++ (b ++ c).
Proof.
  induction a as [|x a IH]; [reflexivity|].
  rewrite !append_cons. now rewrite IH.
Qed.

Lemma app_empty_r (a : string) : a ++ "" = a.
Proof.
  induction a as [|x a IH]; [reflexivity|]. rewrite append_cons. now rewrite IH.
Qed.

Lemma zeros_digits n :
  all_digits (zeros n) = true /\ String.length (zeros n) = n /\
  forall acc, digits_value acc (zeros n) = acc * 10 ^ Z.of_nat n.
Proof.
  induction n as [|n (A & L & V)].
  - repeat split. intros acc. simpl. lia.
  - split; [exact A|]. split; [cbn [zeros String.length]; now rewrite L|].
    intros acc. cbn [zeros digits_value]. rewrite V.
    rewrite Nat2Z.inj_succ, Z.pow_succ_r by lia.
    change (digit_value "0") with 0. ring.
Qed.

Lemma digit_char_digit d :
  0 <= d < 10 ->
  is_digit (digit_char d) = true /\ digit_value (digit_char d) = d.
Proof.
  intros H.
  assert (C : d = 0 \/ d = 1 \/ d = 2 \/ d = 3 \/ d = 4 \/
              d = 5 \/ d = 6 \/ d = 7 \/ d = 8 \/ d = 9) by lia.
  repeat (destruct C as [->|C]; [split; reflexivity|]).
  subst. split; reflexivity.
Qed.

Lemma decimal_digits_aux_S f n acc :
  decimal_digits_aux (S f) n acc =
    if n <? 10 then String (digit_char (n mod 10)) acc
    else decimal_digits_aux f (n / 10) (String (digit_char (n mod 10)) acc).
Proof. reflexivity. Qed.

(** [decimal_digits_aux] puts the digits of [n] in front of [acc]. *)
Lemma decimal_digits_aux_spec fuel : forall n acc,
  0 <= n < 10 ^ Z.of_nat (S fuel) ->
  exists D,
    decimal_digits_aux (S fuel) n acc = D ++ acc /\
    all_digits D = true /\ (0 < String.length D)%nat /\
    digits_value 0 D = n.
Proof.
  induction fuel as [|f IH]; intros n acc H;
    rewrite decimal_digits_aux_S;
    assert (M : 0 <= n mod 10 < 10) by (apply Z.mod_pos_bound; lia);
    destruct (digit_char_digit _ M) as [D1 D2];
    destruct (Z.ltb_spec n 10) as [L|L];
    try (exists (String (digit_char (n mod 10)) "");
         rewrite append_cons, append_nil;
         cbn [all_digits digits_value String.length];
         rewrite D1, D2;
         split; [reflexivity|]; split; [reflexivity|]; split; [lia|];
         rewrite Z.mod_small; lia);
    try (change (10 ^ Z.of_nat 1) with 10 in H; lia).
  destruct (IH (n / 10) (String (digit_char (n mod 10)) acc))
    as (D & E & A & Len & Val).
  { rewrite Nat2Z.inj_succ, Z.pow_succ_r in H by lia.
    split; [apply Z.div_pos; lia|].
    apply Z.div_lt_upper_bound; lia. }
  exists (D ++ String (digit_char (n mod 10)) "").
  rewrite E, app_assoc_string, append_cons, append_nil.
  split; [reflexivity|]. rewrite all_digits_app, A.
  cbn [all_digits]. rewrite D1. split; [reflexivity|].
  rewrite length_app. split; [lia|].
  rewrite digits_value_app, Val. cbn [digits_value]. rewrite D2.
  rewrite (Z.div_mod n 10) at 3 by lia. ring.
Qed.

Lemma decimal_digits_spec n :
  0 <= n ->
  all_digits (decimal_digits n) = true /\
  (0 < String.length (decimal_digits n))%nat /\
  digits_value 0 (decimal_digits n) = n.
Proof.
  intros H. unfold decimal_digits.
  destruct (decimal_digits_aux_spec (Z.to_nat (Z.log2 n)) n "")
    as (D & E & A & L & V).
  { split; [exact H|].
    destruct (Z.eq_dec n 0) as [->|N].
    - simpl. lia.
    - rewrite Nat2Z.inj_succ, Z2Nat.id by apply Z.log2_nonneg.
      apply Z.lt_le_trans with (2 ^ Z.succ (Z.log2 n)).
      + apply Z.log2_spec. lia.
      + apply Z.pow_le_mono_l. lia. }
  rewrite E, app_empty_r. repeat split; assumption.
Qed.

Lemma substring_split : forall n m s,
  substring 0 n s ++ substring n m s = substring 0 (n + m) s.
Proof.
  induction n as [|n IH]; intros m s.
  - replace (substring 0 0 s) with "" by (destruct s; reflexivity).
    reflexivity.
  - destruct s as [|c s]; [reflexivity|].
    cbn [substring Nat.add]. rewrite append_cons. now rewrite IH.
Qed.

Lemma substring_all s : substring 0 (String.length s) s = s.
Proof.
  induction s as [|c s IH]; [reflexivity|].
  cbn [String.length substring]. now rewrite IH.
Qed.

Lemma length_substring_0 : forall n s,
  (n <= String.length s)%nat -> String.length (substring 0 n s) = n.
Proof.
  induction n as [|n IH]; intros s H.
  - destruct s; reflexivity.
  - destruct s as [|c s]; cbn [String.length] in H; [lia|].
    cbn [substring String.length]. rewrite IH; lia.
Qed.

Lemma digit_value_bound c : is_digit c = true -> 0 <= digit_value c <= 9.
Proof.
  unfold is_digit, digit_value. intros H.
  apply andb_true_iff in H as [H1 H2].
  apply Nat.leb_le in H1. apply Nat.leb_le in H2. lia.
Qed.

Lemma digits_value_bound_from a : forall acc,
  all_digits a = true -> 0 <= acc ->
  0 <= digits_value acc a < (acc + 1) * 10 ^ Z.of_nat (String.length a).
Proof.
  induction a as [|c a IH]; intros acc A H.
  - cbn [digits_value String.length]. simpl. lia.
  - cbn [all_digits] in A. apply andb_true_iff in A as [A1 A2].
    pose proof (digit_value_bound c A1) as B.
    cbn [digits_value String.length].
    specialize (IH (10 * acc + digit_value c) A2 ltac:(lia)).
    rewrite Nat2Z.inj_succ, Z.pow_succ_r by lia.
    assert (0 < 10 ^ Z.of_nat (String.length a))
      by (apply Z.pow_pos_nonneg; lia).
    nia.
Qed.

Lemma digits_value_bound a :
  all_digits a = true ->
  0 <= digits_value 0 a < 10 ^ Z.of_nat (String.length a).
Proof.
  intros A. pose proof (digits_value_bound_from a 0 A ltac:(lia)). lia.
Qed.

Lemma prefix_Infinity_digit c r :
  is_digit c = true -> String.prefix "Infinity" (String c r) = false.
Proof.
  intros H. cbn [String.prefix].
  destruct (ascii_dec "I" c) as [<-|N]; [discriminate H|reflexivity].
Qed.

Lemma decimal_to_number_pos s d ex :
  0 < d -> decimal_to_number s d ex = SF2Prim (decimal_to_SF s (Z.to_pos d) ex).
Proof. destruct d; try lia. reflexivity. Qed.

(** Trailing zeros of an integer below [10^21] are a power of ten. *)
Lemma decimal_to_SF_zeros s d j :
  0 < d -> 0 <= j -> d * 10 ^ j < 10 ^ 21 ->
  decimal_to_SF s (Z.to_pos (d * 10 ^ j)) 0 = decimal_to_SF s (Z.to_pos d) j.
Proof.
  intros Hd Hj B.
  assert (P : 0 < 10 ^ j) by (apply Z.pow_pos_nonneg; lia).
  assert (Hdj : 0 < d * 10 ^ j) by lia.
  assert (J : j <= 21).
  { destruct (Z.le_gt_cases j 21) as [L|L]; [exact L|].
    assert (10 ^ 21 <= 10 ^ j) by (apply Z.pow_le_mono_r; lia). nia. }
  assert (L1 : 0 <= Z.log2 (d * 10 ^ j) < 70).
  { split; [apply Z.log2_nonneg|]. apply Z.log2_lt_pow2; [exact Hdj|].
    apply Z.lt_le_trans with (1 := B). apply Z.lt_le_incl. reflexivity. }
  assert (L2 : 0 <= Z.log2 d < 70).
  { split; [apply Z.log2_nonneg|].
    apply Z.le_lt_trans with (Z.log2 (d * 10 ^ j)); [|lia].
    apply Z.log2_le_mono. nia. }
  unfold decimal_to_SF. rewrite !Z2Pos.id by assumption.
  replace (400 <? Z.log2 (d * 10 ^ j) / 4 + 0) with false
    by (symmetry; apply Z.ltb_ge; Z.to_euclidean_division_equations; lia).
  replace ((Z.log2 (d * 10 ^ j) + 1) / 3 + 1 + 0 <? -400) with false
    by (symmetry; apply Z.ltb_ge; Z.to_euclidean_division_equations; lia).
  replace (400 <? Z.log2 d / 4 + j) with false
    by (symmetry; apply Z.ltb_ge; Z.to_euclidean_division_equations; lia).
  replace ((Z.log2 d + 1) / 3 + 1 + j <? -400) with false
    by (symmetry; apply Z.ltb_ge; Z.to_euclidean_division_equations; lia).
  rewrite Z.pow_0_r, Z.mul_1_r.
  destruct j as [|j|j]; [| |lia]; reflexivity.
Qed.

(** *** Reading the four layouts of a Number back *)

Section Layouts.
Variable s : bool.
Variables (ds : string) (d : Z).
Hypothesis ds_digits : all_digits ds = true.
Hypothesis ds_nonempty : (0 < String.length ds)%nat.
Hypothesis ds_value : digits_value 0 ds = d.
Hypothesis d_pos : 0 < d.

Local Abbreviation k := (Z.of_nat (String.length ds)).

(** Digits, then zeros: an integer. *)
Lemma parse_integer_layout j :
  parse_unsigned s (ds ++ zeros j) =
    decimal_to_number s (d * 10 ^ Z.of_nat j) 0.
Proof using ds_digits ds_nonempty ds_value.
  destruct (zeros_digits j) as (ZA & ZL & ZV).
  assert (A : all_digits (ds ++ zeros j) = true)
    by (rewrite all_digits_app, ds_digits, ZA; reflexivity).
  assert (Len : (0 < String.length (ds ++ zeros j))%nat)
    by (rewrite length_app; lia).
  unfold parse_unsigned.
  destruct (ds ++ zeros j) as [|c r] eqn:E; [cbn [String.length] in Len; lia|].
  rewrite prefix_Infinity_digit
    by (cbn [all_digits] in A; now apply andb_true_iff in A as [A _]).
  rewrite (take_digits_all _ 0 0 A).
  replace (0 + Z.of_nat (String.length (String c r)) + 0 =? 0) with false
    by (symmetry; apply Z.eqb_neq; lia).
  cbn [take_exponent]. rewrite Z.sub_0_r.
  rewrite <- E, digits_value_app, ds_value, ZV. reflexivity.
Qed.

(** Digits with a point inside. *)
Lemma parse_point_layout (n : nat) :
  (0 < n < String.length ds)%nat ->
  parse_unsigned s
    (substring 0 n ds ++ "." ++
     substring n (String.length ds - n) ds) =
    decimal_to_number s d (Z.of_nat n - k).
Proof using ds_digits ds_nonempty ds_value.
  intros Hn.
  set (a := substring 0 n ds). set (b := substring n (String.length ds - n) ds).
  assert (E : ds = a ++ b).
  { unfold a, b. rewrite substring_split.
    replace (n + (String.length ds - n))%nat with (String.length ds) by lia.
    symmetry. apply substring_all. }
  assert (La : String.length a = n) by (apply length_substring_0; lia).
  assert (Lb : String.length b = (String.length ds - n)%nat).
  { apply (f_equal String.length) in E. rewrite length_app in E. lia. }
  assert (A : all_digits a = true /\ all_digits b = true).
  { apply andb_true_iff. rewrite <- all_digits_app, <- E. exact ds_digits. }
  destruct A as [Aa Ab].
  unfold parse_unsigned.
  destruct a as [|c r] eqn:Ea; [cbn [String.length] in La; lia|].
  rewrite append_cons.
  rewrite prefix_Infinity_digit
    by (cbn [all_digits] in Aa; now apply andb_true_iff in Aa as [Aa _]).
  rewrite <- append_cons.
  rewrite (take_digits_app _ 0 0 ("." ++ b) Aa eq_refl).
  change ("." ++ b) with (String "." b). cbv iota beta.
  rewrite (take_digits_all b _ 0 Ab).
  replace (0 + Z.of_nat (String.length (String c r)) +
           (0 + Z.of_nat (String.length b)) =? 0) with false
    by (symmetry; apply Z.eqb_neq; lia).
  cbn [take_exponent].
  rewrite <- digits_value_app, <- E, ds_value. f_equal. lia.
Qed.

(** A zero, the point, zeros, then the digits. *)
Lemma parse_fraction_layout j :
  parse_unsigned s ("0." ++ zeros j ++ ds) =
    decimal_to_number s d (- Z.of_nat j - k).
Proof using ds_digits ds_nonempty ds_value.
  destruct (zeros_digits j) as (ZA & ZL & ZV).
  assert (A : all_digits (zeros j ++ ds) = true)
    by (rewrite all_digits_app, ds_digits, ZA; reflexivity).
  unfold parse_unsigned.
  change ("0." ++ zeros j ++ ds)
    with (String "0" (String "." (zeros j ++ ds))).
  rewrite prefix_Infinity_digit by reflexivity.
  change (take_digits 0 0 (String "0" (String "." (zeros j ++ ds))))
    with (0, 1, String "." (zeros j ++ ds)).
  cbv iota beta.
  rewrite (take_digits_all _ 0 0 A).
  rewrite length_app, ZL.
  replace (1 + (0 + Z.of_nat (j + String.length ds)) =? 0) with false
    by (symmetry; apply Z.eqb_neq; lia).
  cbn [take_exponent].
  rewrite digits_value_app, ZV, Z.mul_0_l, ds_value. f_equal. lia.
Qed.

(** The exponent part reads back. *)
Lemma take_exponent_text ex :
  take_exponent
    ("e" ++ (if ex <? 0 then "-" else "+") ++ decimal_digits (Z.abs ex)) = ex.
Proof.
  destruct (decimal_digits_spec (Z.abs ex) (Z.abs_nonneg ex)) as (A & L & V).
  change ("e" ++ ?x) with (String "e" x).
  cbn [take_exponent]. change (Ascii.eqb "e" "e") with true. cbn [orb].
  destruct (Z.ltb_spec ex 0) as [N|N].
  - change ("-" ++ ?x) with (String "-" x). cbn [take_sign].
    rewrite (take_digits_all _ 0 0 A).
    replace (0 + Z.of_nat (String.length (decimal_digits (Z.abs ex))) =? 0)
      with false by (symmetry; apply Z.eqb_neq; lia).
    rewrite V. lia.
  - change ("+" ++ ?x) with (String "+" x). cbn [take_sign].
    rewrite (take_digits_all _ 0 0 A).
    replace (0 + Z.of_nat (String.length (decimal_digits (Z.abs ex))) =? 0)
      with false by (symmetry; apply Z.eqb_neq; lia).
    rewrite V. lia.
Qed.

(** One digit, or one digit, the point and the others; then the
    exponent. *)
Lemma parse_exponent_layout n :
  parse_unsigned s
    (let exp_text :=
       (if n - 1 <? 0 then "-" else "+") ++ decimal_digits (Z.abs (n - 1)) in
     match ds with
     | String c EmptyString => String c ("e" ++ exp_text)
     | String c rest => String c ("." ++ rest ++ "e" ++ exp_text)
     | EmptyString => ""
     end) =
    decimal_to_number s d (n - k).
Proof using ds_digits ds_nonempty ds_value.
  cbv zeta.
  pose proof (take_exponent_text (n - 1)) as TE.
  set (text := "e" ++ (if n - 1 <? 0 then "-" else "+") ++
               decimal_digits (Z.abs (n - 1))) in *.
  assert (TH : ends_digits text = true) by reflexivity.
  destruct ds as [|c rest] eqn:E; [cbn [String.length] in ds_nonempty; lia|].
  pose proof ds_digits as A. cbn [all_digits] in A.
  apply andb_true_iff in A as [A1 A2].
  unfold parse_unsigned.
  destruct rest as [|c2 rest2] eqn:Er.
  - rewrite prefix_Infinity_digit by exact A1.
    change (String c text) with (String c "" ++ text).
    rewrite (take_digits_app (String c "") 0 0 text) by (assumption || now rewrite ds_digits).
    replace (match text with String "." r => _ | _ => _ end)
      with (digits_value 0 (String c ""),
            0 + Z.of_nat (String.length (String c "")) - 1 - 0 + 0 - 0, text)
      by (unfold text; reflexivity).
    cbv iota beta.
    replace (0 + Z.of_nat (String.length (String c "")) +
             (0 + Z.of_nat (String.length (String c "")) - 1 - 0 + 0 - 0) =? 0)
      with false by reflexivity.
    rewrite TE, ds_value. f_equal. cbn [String.length]. lia.
  - rewrite prefix_Infinity_digit by exact A1.
    change (String c ("." ++ String c2 rest2 ++ text))
      with (String c "" ++ String "." (String c2 rest2 ++ text)).
    rewrite (take_digits_app (String c "") 0 0) by (reflexivity || (cbn [all_digits]; now rewrite A1)).
    cbv iota beta.
    rewrite (take_digits_app (String c2 rest2) _ 0 text A2 TH).
    replace (0 + Z.of_nat (String.length (String c "")) +
             (0 + Z.of_nat (String.length (String c2 rest2))) =? 0)
      with false by (symmetry; apply Z.eqb_neq; cbn [String.length]; lia).
    rewrite TE.
    change (digits_value (digits_value 0 (String c "")) (String c2 rest2))
      with (digits_value 0 (String c (String c2 rest2))).
    rewrite ds_value. f_equal. cbn [String.length]. lia.
Qed.

(** The layout starts with a digit. *)
Lemma layout_head n :
  exists c r, Number_layout ds n = String c r /\ is_digit c = true.
Proof using ds_digits ds_nonempty ds_value.
  unfold Number_layout.
  destruct ds as [|c rest] eqn:E; [cbn [String.length] in ds_nonempty; lia|].
  pose proof ds_digits as A. cbn [all_digits] in A.
  apply andb_true_iff in A as [A1 A2].
  destruct ((_ <=? n) && (n <=? 21)).
  { rewrite append_cons. eauto. }
  destruct ((0 <? n) && (n <=? 21)) eqn:C.
  { apply andb_true_iff in C as [C _]. apply Z.ltb_lt in C.
    destruct (Z.to_nat n) as [|n'] eqn:En; [lia|].
    cbn [substring]. rewrite append_cons. eauto. }
  destruct ((-6 <? n) && (n <=? 0)).
  { exists "0"%char. eexists. split; reflexivity. }
  destruct rest; eauto.
Qed.

(** The layout of the digits [ds] with exponent [n] reads back as the
    decimal [d * 10^(n-k)]. *)
Lemma parse_layout n :
  parse_unsigned s (Number_layout ds n) =
    SF2Prim (decimal_to_SF s (Z.to_pos d) (n - k)).
Proof using All.
  pose proof (digits_value_bound ds ds_digits) as B. rewrite ds_value in B.
  unfold Number_layout.
  destruct ((k <=? n) && (n <=? 21)) eqn:CA.
  { apply andb_true_iff in CA as [C1 C2].
    apply Z.leb_le in C1. apply Z.leb_le in C2.
    rewrite parse_integer_layout.
    rewrite Z2Nat.id by lia.
    assert (P : 0 < 10 ^ (n - k)) by (apply Z.pow_pos_nonneg; lia).
    rewrite decimal_to_number_pos by lia. f_equal.
    apply decimal_to_SF_zeros; [exact d_pos|lia|].
    apply Z.lt_le_trans with (10 ^ k * 10 ^ (n - k)); [nia|].
    rewrite <- Z.pow_add_r by lia. apply Z.pow_le_mono_r; lia. }
  destruct ((0 <? n) && (n <=? 21)) eqn:CB.
  { apply andb_true_iff in CB as [C1 C2].
    apply Z.ltb_lt in C1. apply Z.leb_le in C2.
    apply andb_false_iff in CA as [CA|CA];
      [apply Z.leb_gt in CA|apply Z.leb_gt in CA; lia].
    replace (Z.to_nat (k - n)) with (String.length ds - Z.to_nat n)%nat by lia.
    rewrite parse_point_layout by lia.
    rewrite Z2Nat.id by lia. now apply decimal_to_number_pos. }
  destruct ((-6 <? n) && (n <=? 0)) eqn:CC.
  { apply andb_true_iff in CC as [C1 C2].
    apply Z.ltb_lt in C1. apply Z.leb_le in C2.
    rewrite parse_fraction_layout.
    rewrite Z2Nat.id by lia.
    replace (- - n - k) with (n - k) by lia.
    now apply decimal_to_number_pos. }
  rewrite parse_exponent_layout. now apply decimal_to_number_pos.
Qed.

End Layouts.

(** *** The sign of a decimal *)

Lemma binary_round_aux_sign sx m e l m' e' :
  binary_round_aux prec emax false m e l = S754_finite false m' e' ->
  binary_round_aux prec emax sx m e l = S754_finite sx m' e'.
Proof.
  unfold binary_round_aux.
  destruct (shr_fexp prec emax m e l) as [r1 e1].
  destruct (shr_fexp prec emax _ e1 loc_Exact) as [r2 e2].
  destruct (shr_m r2); try discriminate.
  destruct (e2 <=? emax - prec); try discriminate.
  now intros [= -> ->].
Qed.

Lemma binary_normalize_sign (sx : bool) (M E : Z) m e :
  binary_normalize prec emax M E false = S754_finite false m e ->
  binary_normalize prec emax (if sx then - M else M) E sx = S754_finite sx m e.
Proof.
  destruct M as [|p|p]; cbn [binary_normalize]; try discriminate.
  - intros H. destruct sx; [|exact H].
    change (- Z.pos p) with (Z.neg p). cbn [binary_normalize].
    unfold binary_round in *. destruct (shl_align _ _ _) as [mz ez].
    now apply binary_round_aux_sign.
  - unfold binary_round. destruct (shl_align _ _ _) as [mz ez].
    unfold binary_round_aux.
    destruct (shr_fexp prec emax _ ez loc_Exact) as [r1 e1].
    destruct (shr_fexp prec emax _ e1 loc_Exact) as [r2 e2].
    destruct (shr_m r2); try discriminate.
    destruct (e2 <=? emax - prec); discriminate.
Qed.

Lemma decimal_to_SF_sign sx d ex m e :
  decimal_to_SF false d ex = S754_finite false m e ->
  decimal_to_SF sx d ex = S754_finite sx m e.
Proof.
  unfold decimal_to_SF.
  destruct (400 <? _); [discriminate|].
  destruct (_ <? -400); [discriminate|].
  destruct ex as [|ex|ex].
  - apply binary_normalize_sign.
  - apply binary_normalize_sign.
  - destruct (Z.div_eucl _ _) as [q r]. apply binary_normalize_sign.
Qed.

(** *** A Number's text reads back as the Number *)

Lemma digit_cases c :
  is_digit c = true ->
  c = "0"%char \/ c = "1"%char \/ c = "2"%char \/ c = "3"%char \/
  c = "4"%char \/ c = "5"%char \/ c = "6"%char \/ c = "7"%char \/
  c = "8"%char \/ c = "9"%char.
Proof.
  unfold is_digit. intros H. apply andb_true_iff in H as [H1 H2].
  apply Nat.leb_le in H1. apply Nat.leb_le in H2.
  rewrite <- (ascii_nat_embedding c).
  assert (C : (nat_of_ascii c = 48 \/ nat_of_ascii c = 49 \/
               nat_of_ascii c = 50 \/ nat_of_ascii c = 51 \/
               nat_of_ascii c = 52 \/ nat_of_ascii c = 53 \/
               nat_of_ascii c = 54 \/ nat_of_ascii c = 55 \/
               nat_of_ascii c = 56 \/ nat_of_ascii c = 57)%nat) by lia.
  repeat (destruct C as [->|C]; [tauto|]). rewrite C. tauto.
Qed.

Lemma parseFloat_signed (s : bool) c r :
  is_digit c = true ->
  parseFloat ((if s then "-" else "") ++ String c r) =
    parse_unsigned s (String c r).
Proof.
  intros H. unfold parseFloat.
  destruct s.
  - reflexivity.
  - rewrite append_nil.
    destruct (digit_cases c H) as [->|[->|[->|[->|[->|[->|[->|[->|[->| ->]]]]]]]]];
      reflexivity.
Qed.

Theorem parseFloat_Number_toString x :
  parseFloat (Number_toString x) = unsigned_zero x.
Proof.
  unfold Number_toString, unsigned_zero.
  pose proof (Prim2SF_valid x) as V.
  pose proof (SF2Prim_Prim2SF x) as R.
  pose proof (FloatAxioms.eqb_spec x zero) as Z0.
  change (x =? zero)%float with (is_zero x) in Z0. rewrite Z0. clear Z0.
  change (Prim2SF zero) with (S754_zero false).
  destruct (Prim2SF x) as [s|s| |s m e] eqn:E.
  - reflexivity.
  - rewrite <- R. destruct s; reflexivity.
  - rewrite <- R. reflexivity.
  - replace (SFeqb (S754_finite s m e) (S754_zero false)) with false
      by (destruct s; reflexivity).
    unfold Number_digits.
    match goal with
    | |- context [shortest_digits ?f ?k m e ?A ?B ?n] =>
        destruct (shortest_digits_reads_back m e (valid_false _ _ _ V)
                    f k A B n) as [Hd Hr];
        destruct (shortest_digits f k m e A B n) as [d ex]
    end.
    cbn [fst snd] in Hd, Hr.
    destruct (decimal_digits_spec d ltac:(lia)) as (A & L & Val).
    destruct (layout_head (decimal_digits d) d A L Val
                (ex + Z.of_nat (String.length (decimal_digits d))))
      as (c0 & r0 & EL & Hc).
    rewrite EL, (parseFloat_signed s c0 r0 Hc), <- EL.
    rewrite (parse_layout s (decimal_digits d) d A L Val Hd).
    replace (ex + Z.of_nat (String.length (decimal_digits d)) -
             Z.of_nat (String.length (decimal_digits d))) with ex by lia.
    rewrite (decimal_to_SF_sign s _ _ _ _ Hr). exact R.
Qed.

End TextFacts.

(* ================================================================== *)
(** * The claim page: eligibility and the auto-claim latch *)
(* ================================================================== *)

Module ClaimTipPageFacts.
Import ClaimTipPage.

Lemma claimEffect_not_eligible p h :
  canClaim p = false -> claimEffect p h = [].
Proof. intros H. unfold claimEffect. now rewrite H. Qed.

Lemma claimEffect_latched p : claimEffect p true = [].
Proof. unfold claimEffect. now rewrite andb_false_r. Qed.

Lemma claimSettled_no_request o : requests (claimSettled o) = [].
Proof. destruct o as [e|[|] s]; reflexivity. Qed.

Lemma claimSettled_keeps_latch o st :
  latch (fold_left perform (claimSettled o) st) = latch st.
Proof. destruct o as [e|[|] s]; reflexivity. Qed.

Lemma requests_app t1 t2 :
  requests (t1 ++ t2)%list = (requests t1 ++ requests t2)%list.
Proof. apply List.filter_app. Qed.

(** Once the latch is set, no event issues a request, and it stays set. *)
Lemma step_latched st e :
  latch st = true ->
  latch (fst (step st e)) = true /\ requests (snd (step st e)) = [].
Proof.
  intros L. destruct e as [p|o]; simpl.
  - destruct (decide _); simpl; [easy|].
    rewrite L, claimEffect_latched. simpl. easy.
  - destruct (inFlight st); simpl; [easy|].
    rewrite claimSettled_keeps_latch, claimSettled_no_request. easy.
Qed.

Lemma run_latched es : forall st,
  latch st = true ->
  latch (fst (run st es)) = true /\ requests (snd (run st es)) = [].
Proof.
  induction es as [|e es IH]; intros st L; simpl; [easy|].
  destruct (step_latched st e L) as [L1 R1].
  destruct (step st e) as [st1 t1]. simpl in *.
  destruct (IH st1 L1) as [L2 R2].
  destruct (run st1 es) as [st2 t2]. simpl in *.
  now rewrite requests_app, R1, R2.
Qed.

Lemma waiting_initial : waiting initial.
Proof. repeat split. intros; discriminate. Qed.

Lemma step_waiting st e :
  waiting st -> eligible e = false ->
  waiting (fst (step st e)) /\ snd (step st e) = [].
Proof.
  intros (L & F & D) E. destruct e as [p|o]; simpl in *.
  - destruct (decide _) as [Heq|Hne]; simpl.
    + repeat split; assumption.
    + rewrite (claimEffect_not_eligible _ _ E). simpl.
      repeat split; try assumption.
      unfold deps_of. intros c h i m r [= <- _ _ _ _]. exact E.
  - rewrite F. simpl. repeat split; assumption.
Qed.


(** The first render at which the predicate holds fires the claim. *)
Lemma step_fires st p :
  waiting st -> canClaim p = true ->
  snd (step st (Render p)) =
    [SetClaimed true; Fetch (claim_url (id p)) "POST" "{}"] /\
  latch (fst (step st (Render p))) = true.
Proof.
  intros (L & F & D) C. simpl.
  destruct (decide _) as [Heq|Hne].
  - unfold deps_of in Heq. rewrite C in Heq.
    destruct (lastDeps st) as [[[[[c h] i] m] r]|] eqn:E; [|discriminate].
    specialize (D _ _ _ _ _ eq_refl). congruence.
  - unfold claimEffect. rewrite C, L. simpl. easy.
Qed.

Lemma requests_count es : forall st,
  waiting st ->
  length (requests (snd (run st es))) =
    if existsb eligible es then 1%nat else 0%nat.
Proof.
  induction es as [|e es IH]; intros st W; simpl; [reflexivity|].
  destruct (eligible e) eqn:E; simpl.
  - destruct e as [p|o]; [|discriminate]. simpl in E.
    destruct (step_fires st p W E) as [T L].
    destruct (step st (Render p)) as [st1 t1]. cbn [fst snd] in *. subst t1.
    destruct (run_latched es st1 L) as [_ R].
    destruct (run st1 es) as [st2 t2]. cbn [fst snd] in *.
    rewrite requests_app, R. reflexivity.
  - destruct (step_waiting st e W E) as [W1 T1].
    destruct (step st e) as [st1 t1]. cbn [fst snd] in *. subst t1.
    specialize (IH st1 W1). destruct (run st1 es) as [st2 t2]. exact IH.
Qed.


(** C3. The eligibility predicate is the conjunction of its four
    conditions: the viewer can claim exactly when the projection has
    loaded, its [hasClaimed] flag is false, a session exists, and the
    session's user is not the tip's creator.  The latch takes no part. *)
Theorem canClaim_iff (p : Props) :
  canClaim p = true <->
  exists t s, publicTip p = Some t /\ hasClaimed t = false /\
              session p = Some s /\ user_id s <> tipperId t.
Proof.
  unfold canClaim, isTipper.
  destruct (publicTip p) as [t|], (session p) as [s|]; simpl.
  - rewrite andb_true_iff, !negb_true_iff. split.
    + intros [H1 H2]. exists t, s. repeat split; try assumption.
      now apply String.eqb_neq.
    + intros (t' & s' & [= <-] & H1 & [= <-] & H2). split; [assumption|].
      now apply String.eqb_neq.
  - rewrite andb_false_r. split; [discriminate|].
    intros (t' & s' & _ & _ & [=] & _).
  - split; [discriminate|]. intros (t' & s' & [=] & _).
  - split; [discriminate|]. intros (t' & s' & [=] & _).
Qed.

Lemma creator_cannot_claim p : viewer_is_creator p -> canClaim p = false.
Proof.
  intros (s & t & Hs & Ht & E). unfold canClaim, isTipper.
  rewrite Hs, Ht. apply String.eqb_eq in E. rewrite E. simpl.
  apply andb_false_r.
Qed.

(** C4. Whatever the page's state (latch set or not) and whatever the
    projection's [hasClaimed] flag, a lifetime in which every render sees
    a session whose user id is the projection's [tipperId] issues no
    claim request. *)
Theorem creator_never_claims (st : State) (es : list Event) :
  (forall p, In (Render p) es -> viewer_is_creator p) ->
  requests (snd (run st es)) = [].
Proof.
  revert st. induction es as [|e es IH]; intros st H; simpl; [reflexivity|].
  assert (R1 : requests (snd (step st e)) = []).
  { destruct e as [p|o]; simpl.
    - destruct (decide _); simpl; [reflexivity|].
      rewrite claimEffect_not_eligible; [reflexivity|].
      apply creator_cannot_claim, H. now left.
    - destruct (inFlight st); simpl; [reflexivity|].
      apply claimSettled_no_request. }
  destruct (step st e) as [st1 t1]. simpl in R1.
  specialize (IH st1 (fun p Hp => H p (or_intror Hp))).
  destruct (run st1 es) as [st2 t2]. simpl in *.
  now rewrite requests_app, R1, IH.
Qed.

Lemma creator_never_claims_witness :
  requests (snd (run initial
    [Render (creator_props false); Render (creator_props true);
     Render (creator_props false)])) = [].
Proof.
  apply creator_never_claims.
  intros p [E|[E|[E|[]]]]; injection E as <-;
    (eexists; eexists; repeat split; reflexivity).
Defined.


End ClaimTipPageFacts.

(* ================================================================== *)
(** * The gift-composition form: submission *)
(* ================================================================== *)

Module NewTipFacts.
Import JS NewTip JSFacts TextFacts.

Section Page.
Variables MIN_TIP_SATS MAX_TIP_SATS : number.
Variable Routes_tips : string.
Variables getSatsAmount getFiatAmount : number -> number -> number.
Variable calculateFee : number -> number.
Variable Date : Type.
Variable add : Date -> Duration -> Date.

Local Abbreviation onSubmit :=
  (onSubmit MIN_TIP_SATS MAX_TIP_SATS Routes_tips getSatsAmount Date add).
Local Abbreviation preconditions :=
  (preconditions MIN_TIP_SATS MAX_TIP_SATS getSatsAmount).
Local Abbreviation first_failure :=
  (first_failure MIN_TIP_SATS MAX_TIP_SATS getSatsAmount).
Local Abbreviation satsAmount := (satsAmount getSatsAmount).
Local Abbreviation createTipRequest := (createTipRequest Date add).
Local Abbreviation after_request := (after_request Routes_tips Date).

(** The async block never throws: it performs the request, what
    follows from its outcome, and clears the flag. *)
Lemma submitTip_trace data amt now o :
  submitTip Routes_tips Date add data amt now o =
    ((Fetch "/api/tipper/tips" "POST"
        (JSON_stringify (createTipRequest data amt now))
      :: after_request o ++ [SetSubmitting false])%list, inr tt).
Proof.
  destruct o as [e|[|] statusText [id|e']]; reflexivity.
Qed.

(** [onSubmit] when an exchange rate is there. *)
Lemma onSubmit_with_rate st data now o rate :
  watchedExchangeRate st = Some rate -> truthy rate = true ->
  onSubmit st data now o =
    let amt := satsAmount st data in
    if isSubmitting st then ([], inl "Already submitting")
    else if isNaN amt then ([], inl "Invalid tip amount")
    else if lt amt MIN_TIP_SATS then ([], inl "Tip amount is too small")
    else if gt amt MAX_TIP_SATS
         then ([], inl (too_large_message MAX_TIP_SATS))
    else if strict_neq (Math_round amt) amt
         then ([], inl "sat amount must be a whole value")
    else ((SetSubmitting true
           :: Fetch "/api/tipper/tips" "POST"
                (JSON_stringify (createTipRequest data amt now))
           :: after_request o ++ [SetSubmitting false])%list, inr tt).
Proof.
  intros R T. unfold NewTip.onSubmit, NewTip.satsAmount. rewrite R, T.
  cbn [ToNumber].
  set (amt := match inputMethod st with fiat => _ | sats => _ end).
  rewrite submitTip_trace.
  destruct (isSubmitting st); [reflexivity|].
  destruct (isNaN amt); [reflexivity|].
  destruct (lt amt MIN_TIP_SATS); [reflexivity|].
  destruct (gt amt MAX_TIP_SATS); [reflexivity|].
  destruct (strict_neq (Math_round amt) amt); reflexivity.
Qed.

Lemma onSubmit_without_rate st data now o :
  truthy_opt (watchedExchangeRate st) = false ->
  onSubmit st data now o = ([], inl "Exchange rates not loaded").
Proof.
  unfold NewTip.onSubmit. destruct (watchedExchangeRate st) as [r|]; simpl.
  - now intros ->.
  - reflexivity.
Qed.

Lemma messages_distinct st data :
  NoDup (map snd (preconditions st data)).
Proof.
  unfold NewTip.preconditions, too_large_message. simpl.
  repeat (apply NoDup_cons; split;
          [rewrite ?not_elem_of_cons; repeat split;
           try discriminate; try apply not_elem_of_nil|]).
  apply NoDup_nil_2.
Qed.

(** C1. For configured bounds that are numbers, [onSubmit] checks the
    preconditions in the order the specification lists them (a rate is
    loaded, nothing in flight, the amount is a number, at least the
    minimum, at most the maximum, whole): it throws the error of the
    first one that fails, having performed nothing, so no request is
    made; the six errors are distinct and the one for the maximum
    carries the configured maximum.  When all hold, nothing is thrown
    and the submission starts. *)
Theorem onSubmit_validation_order st data now o :
  isNaN MIN_TIP_SATS = false -> isNaN MAX_TIP_SATS = false ->
  NoDup (map snd (preconditions st data)) /\
  too_large_message MAX_TIP_SATS =
    "Tip amount is too large. Please use a value no more than " ++
    Number_toString MAX_TIP_SATS ++ " satoshis" /\
  match first_failure st data with
  | Some (_, error) => onSubmit st data now o = ([], inl error)
  | None =>
      exists rest,
        onSubmit st data now o =
          (SetSubmitting true
           :: Fetch "/api/tipper/tips" "POST"
                (JSON_stringify
                   (createTipRequest data (satsAmount st data) now))
           :: rest, inr tt)
  end.
Proof.
  intros NMin NMax. split; [apply messages_distinct|].
  split; [reflexivity|].
  unfold NewTip.first_failure, NewTip.preconditions. cbn [find fst negb].
  destruct (truthy_opt (watchedExchangeRate st)) eqn:R; cbn [negb].
  2: { now apply onSubmit_without_rate. }
  destruct (watchedExchangeRate st) as [rate|] eqn:W; [|discriminate].
  simpl in R. rewrite (onSubmit_with_rate st data now o rate W R).
  cbv zeta. set (amt := satsAmount st data).
  destruct (isSubmitting st); cbn [negb]; [reflexivity|].
  destruct (isNaN amt) eqn:N; cbn [negb]; [reflexivity|].
  unfold ge, le, lt, gt.
  rewrite <- (not_ltb_leb amt MIN_TIP_SATS N NMin).
  rewrite <- (not_ltb_leb MAX_TIP_SATS amt NMax N).
  destruct (PrimFloat.ltb amt MIN_TIP_SATS); cbn [negb]; [reflexivity|].
  destruct (PrimFloat.ltb MAX_TIP_SATS amt); cbn [negb]; [reflexivity|].
  unfold strict_neq, strict_eq.
  destruct (PrimFloat.eqb (Math_round amt) amt); cbn [negb]; [|reflexivity].
  eexists. reflexivity.
Qed.

(** A run of [onSubmit] either throws during validation, having done
    nothing, or goes through the whole sequence. *)
Lemma onSubmit_runs st data now o :
  (exists error, onSubmit st data now o = ([], inl error)) \/
  onSubmit st data now o =
    ((SetSubmitting true
      :: Fetch "/api/tipper/tips" "POST"
           (JSON_stringify
              (createTipRequest data (satsAmount st data) now))
      :: after_request o ++ [SetSubmitting false])%list, inr tt).
Proof.
  destruct (truthy_opt (watchedExchangeRate st)) eqn:R.
  2: { left. eexists. now apply onSubmit_without_rate. }
  destruct (watchedExchangeRate st) as [rate|] eqn:W; [|discriminate].
  simpl in R. rewrite (onSubmit_with_rate st data now o rate W R).
  cbv zeta. set (amt := satsAmount st data).
  destruct (isSubmitting st); [left; eauto|].
  destruct (isNaN amt); [left; eauto|].
  destruct (lt amt MIN_TIP_SATS); [left; eauto|].
  destruct (gt amt MAX_TIP_SATS); [left; eauto|].
  destruct (strict_neq (Math_round amt) amt); [left; eauto|].
  right. reflexivity.
Qed.

(** C5. A submission runs in sequence exactly when every check passes
    (for configured bounds that are numbers: when no precondition
    fails); otherwise it throws, having done nothing.  When it runs, the
    submitting flag is set, which disables the submit button, the
    request is made, what follows depends on how the request ends, and
    the flag is cleared whatever that was.  A non-OK response shows its
    status text and leaves the page where it was with the submit button
    enabled again; an error thrown on the way is caught and reported
    with the generic message; only an OK response whose body could be
    read navigates, to the detail view of the created tip. *)
Theorem submission_is_sequential st data now o :
  let amt := satsAmount st data in
  let passes :=
    truthy_opt (watchedExchangeRate st) && negb (isSubmitting st) &&
    negb (isNaN amt) && negb (lt amt MIN_TIP_SATS) &&
    negb (gt amt MAX_TIP_SATS) && strict_eq (Math_round amt) amt in
  (isNaN MIN_TIP_SATS = false -> isNaN MAX_TIP_SATS = false ->
   passes = match first_failure st data with
            | None => true
            | Some _ => false
            end) /\
  if passes then
    let request :=
      Fetch "/api/tipper/tips" "POST"
        (JSON_stringify (createTipRequest data amt now)) in
    let t := Eff.trace (onSubmit st data now o) in
    Eff.outcome (onSubmit st data now o) = inr tt /\
    t = (SetSubmitting true :: request
         :: after_request o ++ [SetSubmitting false])%list /\
    submitEnabled (perform_all Date st [SetSubmitting true; request]) =
      false /\
    submitEnabled (perform_all Date st t) = true /\
    (forall statusText tip,
       o = Response false statusText tip ->
       after_request o =
         [ToastError ("Failed to create tip: " ++ statusText)] /\
       location (perform_all Date st t) = location st) /\
    (forall e,
       o = Rejected e ->
       after_request o =
         [ConsoleError e;
          ToastError "Tip creation failed. Please try again."] /\
       location (perform_all Date st t) = location st) /\
    (forall url,
       In (RouterPush url) t ->
       exists statusText id,
         o = Response true statusText (JsonTip id) /\
         url = Routes_tips ++ "/" ++ id /\
         location (perform_all Date st t) = url)
  else exists error, onSubmit st data now o = ([], inl error).
Proof.
  cbv zeta. set (amt := satsAmount st data). split.
  - intros NMin NMax.
    unfold NewTip.first_failure, NewTip.preconditions. fold amt.
    cbn [find fst negb].
    destruct (truthy_opt (watchedExchangeRate st)); cbn [negb andb];
      [|reflexivity].
    destruct (isSubmitting st); cbn [negb andb]; [reflexivity|].
    destruct (isNaN amt) eqn:N; cbn [negb andb]; [reflexivity|].
    unfold ge, le, lt, gt.
    rewrite <- (not_ltb_leb amt MIN_TIP_SATS N NMin).
    rewrite <- (not_ltb_leb MAX_TIP_SATS amt NMax N).
    destruct (PrimFloat.ltb amt MIN_TIP_SATS); cbn [negb andb];
      [reflexivity|].
    destruct (PrimFloat.ltb MAX_TIP_SATS amt); cbn [negb andb];
      [reflexivity|].
    now destruct (strict_eq (Math_round amt) amt).
  - destruct (truthy_opt (watchedExchangeRate st)) eqn:R; cbn [andb].
    2: { eexists. now apply onSubmit_without_rate. }
    destruct (watchedExchangeRate st) as [rate|] eqn:W; [|discriminate].
    simpl in R. rewrite (onSubmit_with_rate st data now o rate W R).
    cbv zeta. fold amt.
    destruct (isSubmitting st) eqn:S; cbn [negb andb]; [eauto|].
    destruct (isNaN amt); cbn [negb andb]; [eauto|].
    destruct (lt amt MIN_TIP_SATS); cbn [negb andb]; [eauto|].
    destruct (gt amt MAX_TIP_SATS); cbn [negb andb]; [eauto|].
    unfold strict_neq, strict_eq.
    destruct (PrimFloat.eqb (Math_round amt) amt); cbn [negb]; [|eauto].
    unfold Eff.trace, Eff.outcome. cbn [fst snd].
    split; [reflexivity|]. split; [reflexivity|]. split; [reflexivity|].
    split; [|split; [|split]].
    + destruct o as [e|[|] statusText [id|e']]; reflexivity.
    + intros statusText tip ->. split; reflexivity.
    + intros e ->. split; reflexivity.
    + intros url H.
      destruct o as [e|[|] statusText [id|e']]; simpl in H;
        repeat (destruct H as [H|H]; try discriminate H); try contradiction.
      injection H as <-. exists statusText, id. repeat split.
Qed.

(** C8. In the body posted to the creation endpoint, [note] and
    [tippeeName] are present exactly when the form field is a
    non-empty string, and then carry it; [amount] (the base-unit
    amount), [currency], [expiry] (now plus [expiresIn] of the chosen
    unit) and [tippeeLocale] are always present. *)
Theorem request_body_members st data now o :
  let body :=
    JSON_stringify (createTipRequest data (satsAmount st data) now) in
  (forall url method b,
     In (Fetch url method b) (Eff.trace (onSubmit st data now o)) ->
     url = "/api/tipper/tips" /\ method = "POST" /\ b = body) /\
  (forall v, In ("note", v) body <->
             exists s, note data = Some s /\ s <> "" /\ v = VString s) /\
  (forall v, In ("tippeeName", v) body <->
             exists s, tippeeName data = Some s /\ s <> "" /\
                       v = VString s) /\
  (forall v, In ("amount", v) body <-> v = VNumber (satsAmount st data)) /\
  (forall v, In ("currency", v) body <-> v = VString (currency data)) /\
  (forall v, In ("expiry", v) body <->
             v = VDate (add now (expiryUnit data, expiresIn data))) /\
  (forall v, In ("tippeeLocale", v) body <->
             v = VString (tippeeLocale data)).
Proof.
  intros body. split.
  { intros url method b H.
    destruct (onSubmit_runs st data now o) as [[error E]|E];
      rewrite E in H; unfold Eff.trace in H; cbn [fst] in H.
    - contradiction.
    - destruct H as [H|[H|H]]; [discriminate| |].
      + injection H as <- <- <-. repeat split.
      + apply in_app_or in H as [H|[H|[]]]; [|discriminate].
        destruct o as [e|[|] statusText [id|e']]; simpl in H;
          repeat (destruct H as [H|H]; try discriminate H);
          contradiction. }
  subst body. unfold NewTip.createTipRequest, JSON_stringify.
  destruct (note data) as [[|c1 n1]|], (tippeeName data) as [[|c2 n2]|];
    cbn [List.filter snd negb is_undefined Nat.ltb Nat.leb String.length];
    repeat split; intros; cbn [In] in *;
    repeat match goal with
           | H : _ \/ _ |- _ => destruct H
           | H : exists _, _ |- _ => destruct H as (? & ? & ? & ?)
           | H : False |- _ => contradiction
           | H : (_, _) = (_, _) |- _ => inversion H; clear H; subst
           end;
    subst; try discriminate; try congruence; eauto 10;
    try (eexists; repeat split; [discriminate]);
    try (intuition (first [discriminate|congruence])).
Qed.

(** C9. While no exchange rate is there for the selected currency, a
    click on the switch button changes nothing: the input mode, the
    amount text and the numeric amount stay as they were. *)
Theorem toggle_without_rate st :
  truthy_opt (watchedExchangeRate st) = false ->
  let st' := clickToggle getSatsAmount getFiatAmount st in
  toggleInputMethod getSatsAmount getFiatAmount st = st /\
  st' = st /\
  inputMethod st' = inputMethod st /\
  amountString (form st') = amountString (form st) /\
  amount (form st') = amount (form st).
Proof.
  intros R. cbv zeta.
  assert (T : toggleInputMethod getSatsAmount getFiatAmount st = st).
  { unfold toggleInputMethod.
    destruct (watchedExchangeRate st) as [r|]; [|reflexivity].
    simpl in R. now rewrite R. }
  assert (C : clickToggle getSatsAmount getFiatAmount st = st).
  { unfold clickToggle, amountStringEffect. rewrite T.
    destruct (decide _) as [_|N]; [reflexivity|]. now contradiction N. }
  rewrite C. repeat split; assumption.
Qed.

(** C10. When the amount text has changed, the numeric amount follows
    it unless the text parses to NaN: it then keeps its value.  Only
    NaN is held back: a text that parses to Infinity, such as
    ["Infinity"], does update the amount. *)
Theorem amount_follows_text previous st :
  previous <> Some (amountString (form st)) ->
  let parsed := parseFloat (amountString (form st)) in
  let st' := amountStringEffect previous st in
  (isNaN parsed = true -> st' = st) /\
  (isNaN parsed = false -> amount (form st') = Some parsed) /\
  (parsed = infinity -> amount (form st') = Some infinity) /\
  parseFloat "Infinity" = infinity /\ isNaN (parseFloat "") = true.
Proof.
  intros H. cbv zeta. unfold amountStringEffect, syncAmount.
  destruct (decide _) as [E|_]; [contradiction|].
  split; [|split; [|split]].
  - now intros ->.
  - now intros ->.
  - intros ->. reflexivity.
  - split; reflexivity.
Qed.


End Page.


(** C7. With the fee of lib/utils, for a whole minimum fee and a
    positive finite percentage: while an exchange rate is there, the fee
    shown for a base-unit amount (a number: no NaN) is
    [max(MINIMUM_FEE_SATS, amount * FEE_PERCENT / 100)] rounded to the
    nearest whole number, and it is at least [MINIMUM_FEE_SATS]; so it
    is for every amount that is not negative. *)
Theorem displayed_fee (MINIMUM_FEE_SATS FEE_PERCENT : number)
    (getSatsAmount : number -> number -> number) (st : State) (rate : number) :
  strict_eq (Math_round MINIMUM_FEE_SATS) MINIMUM_FEE_SATS = true ->
  lt 0%float FEE_PERCENT = true -> lt FEE_PERCENT infinity = true ->
  watchedExchangeRate st = Some rate -> truthy rate = true ->
  let base :=
    match inputMethod st with
    | fiat => getSatsAmount (ToNumber (amount (form st))) rate
    | sats => ToNumber (amount (form st))
    end in
  isNaN base = false ->
  let fee :=
    Math_round (Math_max MINIMUM_FEE_SATS (base * FEE_PERCENT / 100)%float) in
  (ge base 0%float = true -> isNaN base = false) /\
  displayedFee getSatsAmount
    (Utils.calculateFee MINIMUM_FEE_SATS FEE_PERCENT) st = Some fee /\
  ge fee MINIMUM_FEE_SATS = true.
Proof.
  intros HM HP0 HP1 W T base NB fee.
  split; [intros B; apply (leb_not_NaN _ _ B)|].
  destruct (calculateFee_at_least_minimum _ _ HM HP0 HP1 base NB) as [NF GF].
  unfold displayedFee, watchedAmountFee. rewrite W. cbn [truthy_opt].
  rewrite T. fold base. fold (isNaN (Utils.calculateFee MINIMUM_FEE_SATS FEE_PERCENT base)).
  rewrite NF. split; [reflexivity|exact GF].
Qed.

Lemma onSubmit_validation_order_witness :
  onSubmit Sample.MIN_TIP_SATS Sample.MAX_TIP_SATS Sample.Routes_tips
    Utils.getSatsAmount Z Sample.add Sample.page
    (setValue_amount 1000001%float Sample.data) 0
    (Response true "OK" (JsonTip "tip1")) =
  ([], inl "Tip amount is too large. Please use a value no more than 1000000 satoshis").
Proof.
  destruct (onSubmit_validation_order
              Sample.MIN_TIP_SATS Sample.MAX_TIP_SATS Sample.Routes_tips
              Utils.getSatsAmount Z Sample.add Sample.page
              (setValue_amount 1000001%float Sample.data) 0
              (Response true "OK" (JsonTip "tip1")) eq_refl eq_refl)
    as (_ & _ & H).
  vm_compute in H. vm_compute. exact H.
Defined.


Lemma displayed_fee_witness :
  displayedFee Utils.getSatsAmount
    (Utils.calculateFee Sample.MINIMUM_FEE_SATS Sample.FEE_PERCENT)
    Sample.page = Some 25%float /\
  ge 25%float Sample.MINIMUM_FEE_SATS = true.
Proof.
  destruct (displayed_fee Sample.MINIMUM_FEE_SATS Sample.FEE_PERCENT
              Utils.getSatsAmount Sample.page 0.0002%float
              eq_refl eq_refl eq_refl eq_refl eq_refl eq_refl)
    as (_ & H1 & H2).
  split; [exact H1|exact H2].
Defined.

Lemma toggle_without_rate_witness :
  clickToggle Utils.getSatsAmount Utils.getFiatAmount Sample.page_loading =
  Sample.page_loading.
Proof.
  apply (toggle_without_rate Utils.getSatsAmount Utils.getFiatAmount
           Sample.page_loading eq_refl).
Defined.

Lemma amount_follows_text_witness :
  let st := set_form (setValue_amountString "abc") Sample.page in
  amountStringEffect (Some "2500") st = st.
Proof.
  refine (proj1 (amount_follows_text (Some "2500")
                   (set_form (setValue_amountString "abc") Sample.page) _) _).
  - discriminate.
  - vm_compute. reflexivity.
Defined.


End NewTipFacts.

(* ================================================================== *)
(** * The claim page: screens and requests *)
(* ================================================================== *)

Module ClaimTipViewFacts.
Import ClaimTipPage ClaimTipView.

Section Page.
Variable DEFAULT_FIAT_CURRENCY : string.
Variable Routes_withdraw : string.
Variable exchangeRates : option (gmap string JS.number).

Local Abbreviation render :=
  (render DEFAULT_FIAT_CURRENCY Routes_withdraw exchangeRates).

Lemma render_when_eligible p : canClaim p = true -> render p = ClaimingTip.
Proof.
  unfold ClaimTipView.render, canClaim.
  destruct (publicTip p) as [t|]; [|discriminate].
  destruct (hasClaimed t); [discriminate|].
  destruct (session p) as [s|]; [|discriminate].
  now destruct (isTipper p).
Qed.

(** X1. The page shows "Claiming tip" exactly when the eligibility
    predicate of the auto-claim holds: the tip has loaded and is not
    claimed, and a visitor other than its creator is signed in. *)
Theorem claiming_screen_iff_canClaim (p : Props) :
  render p = ClaimingTip <-> canClaim p = true.
Proof.
  split; [|apply render_when_eligible].
  unfold ClaimTipView.render, canClaim.
  destruct (publicTip p) as [t|]; [|discriminate].
  destruct (hasClaimed t).
  - destruct (viewer_is_tippee t (session p)); discriminate.
  - destruct (session p) as [s|]; [|discriminate].
    now destruct (isTipper p).
Qed.

Lemma step_request_eligible st e :
  requests (snd (step st e)) <> [] ->
  exists p, e = Render p /\ canClaim p = true.
Proof.
  destruct e as [p|o]; simpl.
  - destruct (decide _); simpl; [congruence|].
    destruct (canClaim p) eqn:C; [eauto|].
    rewrite ClaimTipPageFacts.claimEffect_not_eligible by exact C.
    simpl. congruence.
  - destruct (inFlight st); simpl; [congruence|].
    rewrite ClaimTipPageFacts.claimSettled_no_request. congruence.
Qed.

(** X2. A claim request is only ever sent by a render that shows
    "Claiming tip": whatever the page's state and the events of a
    lifetime, if a request is sent then one of its renders was eligible
    and showed that screen, and the end of a request sends none. *)
Theorem request_behind_claiming_screen (st : State) (es : list Event) :
  requests (snd (run st es)) <> [] ->
  exists p, In (Render p) es /\ canClaim p = true /\
            render p = ClaimingTip.
Proof.
  revert st. induction es as [|e es IH]; intros st; simpl; [congruence|].
  pose proof (step_request_eligible st e) as S1.
  destruct (step st e) as [st1 t1]. cbn [snd] in S1.
  specialize (IH st1). destruct (run st1 es) as [st2 t2]. cbn [snd] in *.
  rewrite ClaimTipPageFacts.requests_app. intros H.
  destruct (requests t1) as [|a r1] eqn:R1.
  - destruct (IH H) as (p & I & C & V). exists p. now repeat split; [right| |].
  - destruct S1 as (p & -> & C); [discriminate|].
    exists p. split; [now left|]. split; [exact C|].
    now apply render_when_eligible.
Qed.

(** X3. The "Tip claimed!" screen with its Withdraw link is shown
    exactly to the signed-in recipient of a claimed tip: the tip has
    loaded with [hasClaimed], there is a session, and the tip's
    [tippeeId] is the session's user.  A visitor without a session never
    sees it, not even for a tip whose [tippeeId] is [null]. *)
Theorem withdraw_only_for_recipient (p : Props) (w : string)
    (n : option NoteLines) :
  render p = TipClaimed w n <->
  exists t s, publicTip p = Some t /\ hasClaimed t = true /\
              session p = Some s /\ tippeeId t = Some (user_id s) /\
              w = Routes_withdraw /\ n = Note (tipper_name t) (note t).
Proof.
  unfold ClaimTipView.render, viewer_is_tippee. split.
  - destruct (publicTip p) as [t|]; [|discriminate].
    destruct (hasClaimed t) eqn:H.
    + destruct (tippeeId t) as [i|] eqn:I; [|discriminate].
      destruct (session p) as [s|]; [|discriminate].
      destruct (String.eqb i (user_id s)) eqn:E; [|discriminate].
      apply String.eqb_eq in E. subst i. intros [= <- <-].
      exists t, s. repeat split; assumption.
    + destruct (session p); [destruct (isTipper p)|]; discriminate.
  - intros (t & s & -> & -> & -> & -> & -> & ->).
    now rewrite String.eqb_refl.
Qed.

(** X4. "You created this tip so cannot claim it" is shown exactly to
    the signed-in creator of a tip that is not claimed.  Once the tip is
    claimed its creator sees what any other visitor sees: the claimed
    screen if the creator is also its recipient, the "already gifted"
    screen otherwise. *)
Theorem creator_screen (p : Props) :
  (render p = CreatorCannotClaim <->
   viewer_is_creator p /\
   exists t, publicTip p = Some t /\ hasClaimed t = false) /\
  (forall t, publicTip p = Some t -> hasClaimed t = true ->
     render p =
       if viewer_is_tippee t (session p)
       then TipClaimed Routes_withdraw (Note (tipper_name t) (note t))
       else AlreadyGifted).
Proof.
  unfold ClaimTipView.render, viewer_is_creator, isTipper. split.
  - split.
    + destruct (publicTip p) as [t|]; [|discriminate].
      destruct (hasClaimed t) eqn:H.
      * destruct (viewer_is_tippee t (session p)); discriminate.
      * destruct (session p) as [s|]; [|discriminate].
        destruct (String.eqb (user_id s) (tipperId t)) eqn:E;
          [|discriminate].
        apply String.eqb_eq in E. intros _. split; eauto 10.
    + intros ((s & t & Hs & Ht & E) & (t' & Ht' & H)).
      rewrite Ht in *. injection Ht' as <-. rewrite H, Hs, E.
      now rewrite String.eqb_refl.
  - intros t -> ->. reflexivity.
Qed.

(** X5. A note is shown only if the tip carries one that is not empty,
    and then unchanged; it is shown on two screens only: to the
    recipient of a claimed tip, and to a visitor without a session while
    the tip is not claimed.  Its heading names the tipper exactly when
    the tipper has a non-empty name. *)
Theorem note_shown (p : Props) (n : NoteLines) :
  shown_note (render p) = Some n ->
  exists t, publicTip p = Some t /\
            note t = Some (note_text n) /\ note_text n <> "" /\
            (if hasClaimed t
             then exists s, session p = Some s /\
                            tippeeId t = Some (user_id s)
             else session p = None) /\
            note_heading n =
              match tipper_name t with
              | Some name =>
                  if decide (name = "") then "You were also sent a note:"
                  else name ++ " also sent you a note:"
              | None => "You were also sent a note:"
              end.
Proof.
  unfold ClaimTipView.render, viewer_is_tippee.
  destruct (publicTip p) as [t|]; [|discriminate].
  assert (N : Note (tipper_name t) (note t) = Some n ->
              note t = Some (note_text n) /\ note_text n <> "" /\
              note_heading n =
                match tipper_name t with
                | Some name =>
                    if decide (name = "")
                    then "You were also sent a note:"
                    else name ++ " also sent you a note:"
                | None => "You were also sent a note:"
                end).
  { unfold Note. destruct (note t) as [[|c x]|]; try discriminate.
    intros [= <-]. cbn [note_text note_heading].
    split; [reflexivity|]. split; [discriminate|].
    destruct (tipper_name t) as [[|d y]|]; reflexivity. }
  destruct (hasClaimed t) eqn:HC.
  - destruct (tippeeId t) as [i|] eqn:I; [|discriminate].
    destruct (session p) as [s|]; [|discriminate].
    destruct (String.eqb i (user_id s)) eqn:E; [|discriminate].
    apply String.eqb_eq in E. subst i. cbn [shown_note]. intros H.
    destruct (N H) as (N1 & N2 & N3). exists t.
    split; [reflexivity|]. split; [exact N1|]. split; [exact N2|].
    rewrite HC. split; [exists s; split; [reflexivity|exact I]|exact N3].
  - destruct (session p) as [s|].
    + destruct (isTipper p); cbn [shown_note]; discriminate.
    + cbn [shown_note]. intros H.
      destruct (N H) as (N1 & N2 & N3). exists t.
      split; [reflexivity|]. split; [exact N1|]. split; [exact N2|].
      rewrite HC. split; [reflexivity|exact N3].
Qed.

End Page.

Lemma settlements_app t1 t2 :
  settlements (t1 ++ t2)%list = (settlements t1 ++ settlements t2)%list.
Proof. apply List.filter_app. Qed.

(** Each event keeps the account: what has ended, plus what is in
    flight, is covered by what was in flight plus what was sent. *)
Lemma step_account st e :
  (length (settlements (snd (step st e))) + inFlight (fst (step st e))
   <= inFlight st + length (requests (snd (step st e))))%nat.
Proof.
  destruct e as [p|o]; simpl.
  - destruct (decide _); simpl; [lia|].
    unfold claimEffect. destruct (canClaim p && negb (latch st)); simpl; lia.
  - destruct (inFlight st) as [|k] eqn:F; simpl; [lia|].
    destruct o as [err|[|] s]; simpl; lia.
Qed.

Lemma run_account es : forall st,
  (length (settlements (snd (run st es))) + inFlight (fst (run st es))
   <= inFlight st + length (requests (snd (run st es))))%nat.
Proof.
  induction es as [|e es IH]; intros st; simpl; [lia|].
  pose proof (step_account st e) as S1.
  destruct (step st e) as [st1 t1]. cbn [fst snd] in S1.
  specialize (IH st1). destruct (run st1 es) as [st2 t2]. cbn [fst snd] in *.
  rewrite settlements_app, ClaimTipPageFacts.requests_app, !length_app. lia.
Qed.

(** X6. In a page lifetime there is at most one claim request, and the
    alerts and re-fetches together never outnumber the requests sent: at
    most one alert or re-fetch is ever made, and none unless the claim
    was requested. *)
Theorem at_most_one_settlement (es : list Event) :
  let t := snd (run initial es) in
  (length (settlements t) <= length (requests t))%nat /\
  (length (requests t) <= 1)%nat.
Proof.
  cbv zeta. split.
  - pose proof (run_account es initial) as H. simpl in H. lia.
  - rewrite (ClaimTipPageFacts.requests_count es initial
               ClaimTipPageFacts.waiting_initial).
    destruct (existsb eligible es); lia.
Qed.


Lemma request_behind_claiming_screen_witness :
  exists p,
    In (Render p) [Render (Sample.visit (Some (Sample.tip false None))
                             (Some "bob"))] /\
    canClaim p = true /\ render "USD" "/withdraw" None p = ClaimingTip.
Proof.
  apply (request_behind_claiming_screen "USD" "/withdraw" None initial).
  vm_compute. discriminate.
Defined.

Lemma note_shown_witness :
  exists t,
    publicTip (Sample.visit (Some (Sample.tip false None)) None) = Some t /\
    note t = Some "Thank you!".
Proof.
  destruct (note_shown "USD" "/withdraw" None
              (Sample.visit (Some (Sample.tip false None)) None)
              {| note_heading := "Alice also sent you a note:";
                 note_text := "Thank you!" |} eq_refl)
    as (t & H1 & H2 & _).
  exists t. split; [exact H1|exact H2].
Defined.

End ClaimTipViewFacts.

(* ================================================================== *)
(** * The gift-composition form: the page over its lifetime *)
(* ================================================================== *)

Module NewTipPageFacts.
Import JS NewTip NewTipPage JSFacts TextFacts.

Section WithLibs.
Variables MIN_TIP_SATS MAX_TIP_SATS : number.
Variable DEFAULT_LOCALE : string.
Variable Routes_tips : string.
Variables getSatsAmount getFiatAmount : number -> number -> number.
Variable calculateFee : number -> number.
Variable Date : Type.
Variable add : Date -> Duration -> Date.

Local Abbreviation onSubmit :=
  (onSubmit MIN_TIP_SATS MAX_TIP_SATS Routes_tips getSatsAmount Date add).
Local Abbreviation onSubmit_begin :=
  (onSubmit_begin MIN_TIP_SATS MAX_TIP_SATS getSatsAmount Date add).
Local Abbreviation submitTip_resume := (submitTip_resume Routes_tips Date).
Local Abbreviation satsAmount := (satsAmount getSatsAmount).
Local Abbreviation createTipRequest := (createTipRequest Date add).
Local Abbreviation after_request := (after_request Routes_tips Date).
Local Abbreviation clickToggle := (clickToggle getSatsAmount getFiatAmount).
Local Abbreviation displayedFee := (displayedFee getSatsAmount calculateFee).
Local Abbreviation feeRow := (feeRow getSatsAmount calculateFee).
Local Abbreviation step :=
  (step MIN_TIP_SATS MAX_TIP_SATS Routes_tips getSatsAmount getFiatAmount
     Date add).
Local Abbreviation run :=
  (run MIN_TIP_SATS MAX_TIP_SATS Routes_tips getSatsAmount getFiatAmount
     Date add).
Local Abbreviation mounted := (mounted DEFAULT_LOCALE).

(** ** The submission in two halves *)

Lemma submitTip_resume_trace o :
  submitTip_resume o = ((after_request o ++ [SetSubmitting false])%list, inr tt).
Proof. destruct o as [e|[|] statusText [id|e']]; reflexivity. Qed.

Lemma onSubmit_begin_with_rate st data now rate :
  watchedExchangeRate st = Some rate -> truthy rate = true ->
  onSubmit_begin st data now =
    let amt := satsAmount st data in
    if isSubmitting st then ([], inl "Already submitting")
    else if isNaN amt then ([], inl "Invalid tip amount")
    else if lt amt MIN_TIP_SATS then ([], inl "Tip amount is too small")
    else if gt amt MAX_TIP_SATS
         then ([], inl (too_large_message MAX_TIP_SATS))
    else if strict_neq (Math_round amt) amt
         then ([], inl "sat amount must be a whole value")
    else ([SetSubmitting true;
           Fetch "/api/tipper/tips" "POST"
             (JSON_stringify (createTipRequest data amt now))], inr tt).
Proof.
  intros R T. unfold NewTipPage.onSubmit_begin, NewTip.satsAmount.
  rewrite R, T. cbn [ToNumber].
  set (amt := match inputMethod st with fiat => _ | sats => _ end).
  destruct (isSubmitting st); [reflexivity|].
  destruct (isNaN amt); [reflexivity|].
  destruct (lt amt MIN_TIP_SATS); [reflexivity|].
  destruct (gt amt MAX_TIP_SATS); [reflexivity|].
  destruct (strict_neq (Math_round amt) amt); reflexivity.
Qed.

Lemma onSubmit_begin_without_rate st data now :
  truthy_opt (watchedExchangeRate st) = false ->
  onSubmit_begin st data now = ([], inl "Exchange rates not loaded").
Proof.
  unfold NewTipPage.onSubmit_begin.
  destruct (watchedExchangeRate st) as [r|]; simpl.
  - now intros ->.
  - reflexivity.
Qed.

(** The two halves make the whole: [onSubmit] is its beginning followed,
    unless that throws, by the rest of the async block. *)
Lemma onSubmit_split st data now o :
  onSubmit st data now o =
    (onSubmit_begin st data now ;; submitTip_resume o).
Proof.
  destruct (truthy_opt (watchedExchangeRate st)) eqn:R.
  2: { rewrite NewTipFacts.onSubmit_without_rate,
         onSubmit_begin_without_rate by exact R. reflexivity. }
  destruct (watchedExchangeRate st) as [rate|] eqn:W; [|discriminate].
  simpl in R.
  rewrite (NewTipFacts.onSubmit_with_rate _ _ _ _ _ _ st data now o rate W R).
  rewrite (onSubmit_begin_with_rate st data now rate W R).
  rewrite submitTip_resume_trace. cbv zeta.
  destruct (isSubmitting st); [reflexivity|].
  destruct (isNaN _); [reflexivity|].
  destruct (lt _ _); [reflexivity|].
  destruct (gt _ _); [reflexivity|].
  destruct (strict_neq _ _); reflexivity.
Qed.

(** The beginning of a submission either throws, having done nothing,
    or passes every check and sends the request. *)
Lemma onSubmit_begin_runs st data now :
  (exists error, onSubmit_begin st data now = ([], inl error)) \/
  (isSubmitting st = false /\
   onSubmit_begin st data now =
     ([SetSubmitting true;
       Fetch "/api/tipper/tips" "POST"
         (JSON_stringify (createTipRequest data (satsAmount st data) now))],
      inr tt)).
Proof.
  destruct (truthy_opt (watchedExchangeRate st)) eqn:R.
  2: { left. eexists. now apply onSubmit_begin_without_rate. }
  destruct (watchedExchangeRate st) as [rate|] eqn:W; [|discriminate].
  simpl in R. rewrite (onSubmit_begin_with_rate st data now rate W R).
  cbv zeta.
  destruct (isSubmitting st); [left; eauto|].
  destruct (isNaN _); [left; eauto|].
  destruct (lt _ _); [left; eauto|].
  destruct (gt _ _); [left; eauto|].
  destruct (strict_neq _ _); [left; eauto|].
  right. split; reflexivity.
Qed.

(** ** What the actions leave alone *)

Lemma perform_form st a : form (perform Date st a) = form st.
Proof. destruct a; reflexivity. Qed.

Lemma perform_all_form t : forall st,
  form (perform_all Date st t) = form st.
Proof.
  unfold perform_all. induction t as [|a t IH]; intros st; simpl.
  - reflexivity.
  - now rewrite IH, perform_form.
Qed.

Lemma amountStringEffect_isSubmitting prev st :
  isSubmitting (amountStringEffect prev st) = isSubmitting st.
Proof.
  unfold amountStringEffect, syncAmount.
  destruct (decide _); [reflexivity|].
  destruct (negb _); reflexivity.
Qed.

Lemma toggleInputMethod_isSubmitting st :
  isSubmitting (toggleInputMethod getSatsAmount getFiatAmount st) =
  isSubmitting st.
Proof.
  unfold toggleInputMethod.
  destruct (watchedExchangeRate st) as [rate|]; [|reflexivity].
  destruct (truthy rate); reflexivity.
Qed.

Lemma toggleInputMethod_amount st :
  amount (form (toggleInputMethod getSatsAmount getFiatAmount st)) =
  amount (form st).
Proof.
  unfold toggleInputMethod.
  destruct (watchedExchangeRate st) as [rate|]; [|reflexivity].
  destruct (truthy rate); reflexivity.
Qed.

(** ** The amount and its text *)

(** The effect on the amount text restores the agreement of the amount
    with the text, whatever the text has become. *)
Lemma amountStringEffect_in_step st st1 :
  amount_in_step st -> amount (form st1) = amount (form st) ->
  amount_in_step (amountStringEffect (Some (amountString (form st))) st1).
Proof.
  intros (v & A & N & P) E. unfold amountStringEffect.
  destruct (decide _) as [D|D].
  - injection D as D. exists v. rewrite E, <- D. auto.
  - unfold syncAmount.
    destruct (isNaN (parseFloat (amountString (form st1)))) eqn:N1; simpl.
    + exists v. rewrite E, N1. split; [exact A|]. split; [exact N|].
      discriminate.
    + exists (parseFloat (amountString (form st1))). auto.
Qed.

Lemma parseFloat_1 : parseFloat "1" = 1%float.
Proof. vm_compute. reflexivity. Qed.

(** Mounting reads the default text "1" into the amount. *)
Lemma mounted_state rates path :
  page_state (mounted rates path) =
  set_form (setValue_amount 1%float) (initialState DEFAULT_LOCALE rates path).
Proof.
  unfold NewTipPage.mounted, amountStringEffect. cbn [page_state].
  destruct (decide (None = Some _)) as [D|_]; [discriminate D|].
  unfold syncAmount.
  cbn [initialState form defaultValues amountString].
  rewrite parseFloat_1. reflexivity.
Qed.

Lemma mounted_in_step rates path :
  amount_in_step (page_state (mounted rates path)).
Proof.
  rewrite mounted_state. exists 1%float.
  cbn [set_form form setValue_amount amount amountString initialState
       defaultValues].
  rewrite parseFloat_1. auto.
Qed.

Lemma step_in_step pg e :
  amount_in_step (page_state pg) ->
  amount_in_step (page_state (fst (step pg e))).
Proof.
  intros I. destruct e; cbn [NewTipPage.step fst page_state with_state];
    try exact I.
  - apply amountStringEffect_in_step; [exact I|reflexivity].
  - apply amountStringEffect_in_step; [exact I|].
    apply toggleInputMethod_amount.
  - destruct I as (v & A & N & P). exists v.
    now rewrite perform_all_form.
  - destruct (page_inFlight pg); cbn [fst page_state]; [exact I|].
    destruct I as (v & A & N & P). exists v.
    now rewrite perform_all_form.
Qed.

Lemma run_in_step es : forall pg,
  amount_in_step (page_state pg) ->
  amount_in_step (page_state (fst (run pg es))).
Proof.
  induction es as [|e es IH]; intros pg I; simpl; [exact I|].
  pose proof (step_in_step pg e I) as I1.
  destruct (step pg e) as [pg1 t1]. cbn [fst] in I1.
  specialize (IH pg1 I1). now destruct (run pg1 es).
Qed.


(** ** The switch button *)

Lemma amountStringEffect_inputMethod prev st :
  inputMethod (amountStringEffect prev st) = inputMethod st.
Proof.
  unfold amountStringEffect, syncAmount.
  destruct (decide _); [reflexivity|].
  destruct (negb _); reflexivity.
Qed.

Lemma amountStringEffect_currency prev st :
  currency (form (amountStringEffect prev st)) = currency (form st).
Proof.
  unfold amountStringEffect, syncAmount.
  destruct (decide _); [reflexivity|].
  destruct (negb _); reflexivity.
Qed.

Lemma amountStringEffect_amountString prev st :
  amountString (form (amountStringEffect prev st)) = amountString (form st).
Proof.
  unfold amountStringEffect, syncAmount.
  destruct (decide _); [reflexivity|].
  destruct (negb _); reflexivity.
Qed.

(** With a rate, the callback writes the converted amount as text and
    flips the mode. *)
Lemma toggleInputMethod_with_rate st rate :
  watchedExchangeRate st = Some rate -> truthy rate = true ->
  toggleInputMethod getSatsAmount getFiatAmount st =
    set_form
      (setValue_amountString
         (Number_toString
            (match inputMethod st with
             | fiat => getSatsAmount (ToNumber (amount (form st))) rate
             | sats => round2 (getFiatAmount (ToNumber (amount (form st))) rate)
             end)))
      (setInputMethod (altInputMethod st) st).
Proof. intros W T. unfold toggleInputMethod. now rewrite W, T. Qed.

Lemma toggleInputMethod_without_rate st :
  truthy_opt (watchedExchangeRate st) = false ->
  toggleInputMethod getSatsAmount getFiatAmount st = st.
Proof.
  intros R. unfold toggleInputMethod.
  destruct (watchedExchangeRate st) as [r|]; [|reflexivity].
  simpl in R. now rewrite R.
Qed.

(** X7. The switch button does what its label says: while a rate is
    there for the selected currency, a click makes the unit named on the
    button ("Switch to ...") the unit of the amount field ("Amount in
    ..."), and the button then names the unit left behind; while there
    is none, both labels stay as they are. *)
Theorem switch_button_label (st : State) :
  let st' := clickToggle st in
  if truthy_opt (watchedExchangeRate st)
  then amountUnit st' = switchUnit st /\ switchUnit st' = amountUnit st
  else amountUnit st' = amountUnit st /\ switchUnit st' = switchUnit st.
Proof.
  cbv zeta. unfold amountUnit, switchUnit, altInputMethod, NewTip.clickToggle.
  rewrite amountStringEffect_inputMethod, amountStringEffect_currency.
  destruct (truthy_opt (watchedExchangeRate st)) eqn:R.
  - destruct (watchedExchangeRate st) as [rate|] eqn:W; [|discriminate].
    simpl in R. rewrite (toggleInputMethod_with_rate st rate W R).
    cbn [inputMethod set_form setInputMethod form currency
         setValue_amountString].
    unfold altInputMethod. destruct (inputMethod st); split; reflexivity.
  - rewrite (toggleInputMethod_without_rate st R). split; reflexivity.
Qed.

(** X8. One click on the switch button, while a rate is there and the
    amount agrees with its text: the mode flips, the amount text becomes
    the decimal form of the converted amount (base units from fiat; fiat
    rounded to cents from base units), and the amount becomes that
    number, a zero without its sign; should the conversion give NaN, the
    text reads "NaN" and the amount keeps its value.  The amount and its
    text agree again afterwards. *)
Theorem switch_shows_converted (st : State) (rate : number) :
  watchedExchangeRate st = Some rate -> truthy rate = true ->
  amount_in_step st ->
  let a := ToNumber (amount (form st)) in
  let x := match inputMethod st with
           | fiat => getSatsAmount a rate
           | sats => round2 (getFiatAmount a rate)
           end in
  let st' := clickToggle st in
  inputMethod st' = altInputMethod st /\
  amountString (form st') = Number_toString x /\
  amount (form st') =
    (if isNaN x then amount (form st) else Some (unsigned_zero x)) /\
  parseFloat (amountString (form st')) = unsigned_zero x /\
  (isNaN x = true -> amountString (form st') = "NaN") /\
  amount_in_step st'.
Proof.
  intros W T I a x st'.
  assert (S' : amount_in_step st').
  { apply amountStringEffect_in_step; [exact I|].
    apply toggleInputMethod_amount. }
  assert (X : amountString (form st') = Number_toString x).
  { unfold st', NewTip.clickToggle.
    rewrite amountStringEffect_amountString.
    now rewrite (toggleInputMethod_with_rate st rate W T). }
  split; [|split; [exact X|split; [|split; [|split; [|exact S']]]]].
  - unfold st', NewTip.clickToggle.
    rewrite amountStringEffect_inputMethod.
    now rewrite (toggleInputMethod_with_rate st rate W T).
  - pose proof (parseFloat_Number_toString x) as R.
    assert (N' : isNaN (unsigned_zero x) = isNaN x).
    { unfold unsigned_zero. destruct (is_zero x) eqn:Z; [|reflexivity].
      unfold is_zero in Z. destruct (eqb_not_NaN x zero Z) as [Nx _].
      rewrite Nx. reflexivity. }
    destruct I as (v & A & Nv & P).
    unfold st', NewTip.clickToggle.
    rewrite (toggleInputMethod_with_rate st rate W T). fold a. fold x.
    unfold amountStringEffect. destruct (decide _) as [D|D].
    + cbn [form set_form setInputMethod amount setValue_amountString].
      destruct (isNaN x) eqn:Nx; [reflexivity|].
      cbn [form set_form amountString setValue_amountString] in D.
      injection D as D. rewrite A. f_equal. rewrite <- P.
      * rewrite D. exact R.
      * rewrite D, R. exact N'.
    + unfold syncAmount.
      cbn [form set_form setInputMethod amountString setValue_amountString].
      rewrite R, N'. destruct (isNaN x); reflexivity.
  - rewrite X. apply parseFloat_Number_toString.
  - intros Nx. rewrite X.
    apply isNaN_spec in Nx. unfold Number_toString. now rewrite Nx.
Qed.

(** ** What is shown *)

(** X9. No NaN reaches the prices shown.  The price under the amount
    field is the fiat price of the amount in base-unit mode and the
    base-unit price of it in fiat mode, for the selected currency's
    rate, and it gets the amount, or 0 while the amount is [undefined]
    or NaN.  The fee row is there exactly while a rate is; it gets the
    fee [calculateFee] gives for the base-unit amount (the amount
    itself, or the fiat amount converted with the rate), or 0 should
    that fee be NaN, both as the number of base units and as the amount
    of its fiat price. *)
Theorem nothing_shown_is_NaN (st : State) :
  let shown :=
    match amount (form st) with
    | Some v => if isNaN v then 0%float else v
    | None => 0%float
    end in
  isNaN (price_amount (pricePreview st)) = false /\
  price_amount (pricePreview st) = shown /\
  pricePreview st =
    match inputMethod st with
    | sats => FiatPrice (currency (form st)) (watchedExchangeRate st) shown
    | fiat => SatsPrice (watchedExchangeRate st) shown
    end /\
  (forall fee price,
     feeRow st = Some (fee, price) ->
     isNaN fee = false /\ price_amount price = fee /\
     truthy_opt (watchedExchangeRate st) = true) /\
  (truthy_opt (watchedExchangeRate st) = false -> feeRow st = None) /\
  (forall rate,
     watchedExchangeRate st = Some rate -> truthy rate = true ->
     let base :=
       match inputMethod st with
       | fiat => getSatsAmount (ToNumber (amount (form st))) rate
       | sats => ToNumber (amount (form st))
       end in
     let fee :=
       if isNaN (calculateFee base) then 0%float else calculateFee base in
     watchedAmountFee getSatsAmount calculateFee st = calculateFee base /\
     feeRow st =
       Some (fee, FiatPrice (currency (form st)) (Some rate) fee)).
Proof.
  cbv zeta.
  assert (P : shownAmount st =
              match amount (form st) with
              | Some v => if isNaN v then 0%float else v
              | None => 0%float
              end).
  { unfold shownAmount. destruct (amount (form st)) as [v|]; cbn [ToNumber];
      try (destruct (isNaN v)); reflexivity. }
  split; [|split; [|split; [|split; [|split]]]].
  - unfold pricePreview, shownAmount.
    destruct (inputMethod st); cbn [price_amount];
      destruct (isNaN (ToNumber (amount (form st)))) eqn:N; cbn [negb];
      try exact N; reflexivity.
  - transitivity (shownAmount st); [|exact P].
    unfold pricePreview. destruct (inputMethod st); reflexivity.
  - unfold pricePreview. destruct (inputMethod st); f_equal; exact P.
  - intros fee price. unfold NewTipPage.feeRow, NewTip.displayedFee.
    destruct (truthy_opt (watchedExchangeRate st)); [|discriminate].
    intros [= <- <-]. cbn [price_amount]. split; [|split; reflexivity].
    destruct (isNaN (watchedAmountFee _ _ st)) eqn:N; cbn [negb];
      [reflexivity|exact N].
  - intros R. unfold NewTipPage.feeRow, NewTip.displayedFee.
    now rewrite R.
  - intros rate W T.
    assert (F : watchedAmountFee getSatsAmount calculateFee st =
                calculateFee
                  match inputMethod st with
                  | fiat => getSatsAmount (ToNumber (amount (form st))) rate
                  | sats => ToNumber (amount (form st))
                  end).
    { unfold watchedAmountFee. now rewrite W, T. }
    split; [exact F|].
    unfold NewTipPage.feeRow, NewTip.displayedFee. rewrite F, W.
    cbn [truthy_opt]. rewrite T.
    destruct (isNaN (calculateFee _)); reflexivity.
Qed.

(** X10. The currency dropdown is there exactly when the rates have
    loaded; it offers each currency of the table once, labelled with its
    code; and the currencies it offers are exactly those for which a
    selection gives the page an exchange rate. *)
Theorem currency_options (st : State) :
  (exchangeRateSelectOptions st = None <-> exchangeRates st = None) /\
  (forall opts,
     exchangeRateSelectOptions st = Some opts ->
     NoDup (map option_value opts) /\
     (forall o, In o opts -> option_label o = option_value o) /\
     (forall c,
        In c (map option_value opts) <->
        exists rate,
          watchedExchangeRate (setDropdownSelectedCurrency c st) =
          Some rate)).
Proof.
  unfold exchangeRateSelectOptions, watchedExchangeRate.
  cbn [exchangeRates setDropdownSelectedCurrency set_form form currency
       setValue_currency].
  destruct (exchangeRates st) as [rates|]; [|split; [easy|discriminate]].
  split; [split; discriminate|]. intros opts [= <-].
  assert (V : map option_value
                (map (fun key => {| option_value := key; option_label := key |})
                   (map fst (map_to_list rates))) =
              map fst (map_to_list rates)).
  { rewrite map_map. cbn [option_value]. apply map_id. }
  rewrite V. split; [apply NoDup_fst_map_to_list|]. split.
  - intros o H. apply in_map_iff in H as (key & <- & _). reflexivity.
  - intros c. rewrite in_map_iff. split.
    + intros ([k r] & <- & H).
      apply list_elem_of_In, elem_of_map_to_list in H. eauto.
    + intros [r H]. exists (c, r). split; [reflexivity|].
      now apply list_elem_of_In, elem_of_map_to_list.
Qed.

(** X11. A text that does not read as a number, such as the empty
    text, changes nothing but the text: the amount, the price and the
    fee shown stay as they are, and a submission does what it would have
    done before, with the amount last read. *)
Theorem unparsable_text_changes_nothing (st : State) (text : string) :
  isNaN (parseFloat text) = true ->
  let st' := typeAmountString text st in
  amountString (form st') = text /\
  amount (form st') = amount (form st) /\
  displayedFee st' = displayedFee st /\
  pricePreview st' = pricePreview st /\
  forall now o, onSubmit st' (form st') now o = onSubmit st (form st) now o.
Proof.
  intros N st'.
  assert (E : st' = set_form (setValue_amountString text) st).
  { unfold st', typeAmountString, amountStringEffect.
    destruct (decide _); [reflexivity|]. unfold syncAmount.
    cbn [form set_form amountString setValue_amountString].
    now rewrite N. }
  rewrite E. repeat split.
Qed.

(** ** Submissions *)

(** X12. A creation request is only sent for a valid amount: whenever
    [onSubmit] calls [fetch], an exchange rate is there, no other
    submission is running, and the body's [amount] is the base-unit
    amount, which is a number, not below the minimum, not above the
    maximum, and whole: [Math.round] leaves it as it is, so its value is
    an integer (as [scaled] counts, in units of [2^-1074], with
    [2^2098] for an infinite amount, which only an infinite maximum lets
    through). *)
Theorem request_amount_valid (st : State) (data : NewTipFormData)
    (now : Date) (o : FetchOutcome) (url method : string)
    (body : list (string * value Date)) :
  In (Fetch url method body) (Eff.trace (onSubmit st data now o)) ->
  let a := satsAmount st data in
  In ("amount", VNumber a) body /\
  truthy_opt (watchedExchangeRate st) = true /\ isSubmitting st = false /\
  isNaN a = false /\ lt a MIN_TIP_SATS = false /\
  gt a MAX_TIP_SATS = false /\ strict_eq (Math_round a) a = true /\
  (exists n : Z, scaled (Prim2SF a) = n * 2 ^ 1074) /\
  (isNaN MIN_TIP_SATS = false -> ge a MIN_TIP_SATS = true) /\
  (isNaN MAX_TIP_SATS = false -> le a MAX_TIP_SATS = true).
Proof.
  intros H a.
  destruct (truthy_opt (watchedExchangeRate st)) eqn:R.
  2: { rewrite NewTipFacts.onSubmit_without_rate in H by exact R.
       contradiction. }
  destruct (watchedExchangeRate st) as [rate|] eqn:W; [|discriminate].
  simpl in R.
  rewrite (NewTipFacts.onSubmit_with_rate _ _ _ _ _ _ st data now o rate W R)
    in H.
  cbv zeta in H. fold a in H. unfold Eff.trace in H.
  destruct (isSubmitting st); [contradiction|].
  destruct (isNaN a) eqn:N; [contradiction|].
  destruct (lt a MIN_TIP_SATS) eqn:L; [contradiction|].
  destruct (gt a MAX_TIP_SATS) eqn:G; [contradiction|].
  destruct (strict_neq (Math_round a) a) eqn:Q; [contradiction|].
  cbn [fst] in H.
  assert (B : body = JSON_stringify (createTipRequest data a now)).
  { destruct H as [H|[H|H]]; [discriminate| |].
    - now injection H as _ _ <-.
    - apply in_app_or in H as [H|[H|[]]]; [|discriminate].
      destruct o as [e|[|] statusText [id|e']]; simpl in H;
        repeat (destruct H as [H|H]; try discriminate H); contradiction. }
  split; [rewrite B; left; reflexivity|].
  split; [reflexivity|]. split; [reflexivity|]. split; [reflexivity|].
  split; [reflexivity|]. split; [reflexivity|].
  assert (Q' : PrimFloat.eqb (Math_round a) a = true).
  { unfold strict_neq in Q. now destruct (PrimFloat.eqb (Math_round a) a). }
  split; [exact Q'|]. split; [|split].
  - destruct (Math_round_scaled a N) as [NR SR].
    rewrite (eqb_scaled _ _ NR N) in Q'. apply Z.eqb_eq in Q'.
    rewrite SR in Q'. eexists. symmetry. exact Q'.
  - intros NM. unfold ge. rewrite <- (not_ltb_leb a MIN_TIP_SATS N NM).
    unfold lt in L. now rewrite L.
  - intros NM. unfold le. rewrite <- (not_ltb_leb MAX_TIP_SATS a NM N).
    unfold gt in G. now rewrite G.
Qed.

Lemma perform_all_cleared st t :
  isSubmitting (perform_all Date st (t ++ [SetSubmitting false])%list) = false.
Proof. unfold perform_all. now rewrite fold_left_app. Qed.

Lemma after_request_counts o :
  List.filter is_fetch (after_request o) = [] /\
  List.filter is_cleared (after_request o) = [].
Proof. destruct o as [e|[|] statusText [id|e']]; split; reflexivity. Qed.

(** One event keeps the flag and the requests in flight together, and
    the account of requests sent and submissions ended. *)
Lemma step_single_flight pg e :
  page_inFlight pg = (if isSubmitting (page_state pg) then 1 else 0)%nat ->
  let pg1 := fst (step pg e) in
  let t := snd (step pg e) in
  page_inFlight pg1 = (if isSubmitting (page_state pg1) then 1 else 0)%nat /\
  (length (List.filter is_fetch t) + page_inFlight pg =
   length (List.filter is_cleared t) + page_inFlight pg1)%nat.
Proof.
  intros I. destruct e;
    cbn [NewTipPage.step fst snd page_state page_inFlight with_state];
    cbv zeta.
  - unfold typeAmountString. rewrite amountStringEffect_isSubmitting.
    now split.
  - unfold NewTip.clickToggle.
    rewrite amountStringEffect_isSubmitting, toggleInputMethod_isSubmitting.
    now split.
  - now split.
  - now split.
  - now split.
  - now split.
  - now split.
  - now split.
  - now split.
  - destruct (onSubmit_begin_runs (page_state pg) (form (page_state pg)) now)
      as [[error E]|[S E]]; rewrite E;
      cbn [Eff.trace Eff.outcome fst snd page_state page_inFlight].
    + now split.
    + rewrite S in I. rewrite I. split; reflexivity.
  - destruct (page_inFlight pg) as [|n] eqn:F;
      cbn [fst snd page_state page_inFlight]; [rewrite F; now split|].
    rewrite submitTip_resume_trace. cbn [Eff.trace fst].
    rewrite perform_all_cleared, !List.filter_app, !List.length_app.
    destruct (after_request_counts o) as [-> ->].
    destruct (isSubmitting (page_state pg)); [|discriminate].
    injection I as ->. split; reflexivity.
Qed.

Lemma run_single_flight es : forall pg,
  page_inFlight pg = (if isSubmitting (page_state pg) then 1 else 0)%nat ->
  let pg1 := fst (run pg es) in
  let t := snd (run pg es) in
  page_inFlight pg1 = (if isSubmitting (page_state pg1) then 1 else 0)%nat /\
  (length (List.filter is_fetch t) + page_inFlight pg =
   length (List.filter is_cleared t) + page_inFlight pg1)%nat.
Proof.
  induction es as [|e es IH]; intros pg I; cbn [NewTipPage.run].
  - now split.
  - destruct (step_single_flight pg e I) as [I1 C1].
    destruct (step pg e) as [pg1 t1]. cbn [fst snd] in I1, C1.
    destruct (IH pg1 I1) as [I2 C2].
    destruct (run pg1 es) as [pg2 t2]. cbn [fst snd] in *.
    split; [exact I2|]. rewrite !List.filter_app, !List.length_app. lia.
Qed.

(** X13. At most one creation request is in flight at any time: over
    every lifetime of the page, one is in flight exactly while the
    submitting flag is set (the submit button disabled), the requests
    sent are those whose submission has ended plus the one in flight,
    and a submission made while one is in flight sends nothing and
    changes nothing. *)
Theorem one_request_in_flight (rates : option (gmap string number))
    (path : string) (es : list (Event Date)) :
  let pg := fst (run (mounted rates path) es) in
  let t := snd (run (mounted rates path) es) in
  page_inFlight pg = (if isSubmitting (page_state pg) then 1 else 0)%nat /\
  length (List.filter is_fetch t) =
    (length (List.filter is_cleared t) + page_inFlight pg)%nat /\
  (forall now,
     isSubmitting (page_state pg) = true -> step pg (Submit now) = (pg, [])).
Proof.
  cbv zeta.
  destruct (run_single_flight es (mounted rates path)) as [I C].
  { rewrite mounted_state. reflexivity. }
  cbn [page_inFlight NewTipPage.mounted] in C.
  split; [exact I|]. split; [lia|].
  intros now S. set (pg := fst (run _ es)) in *.
  cbn [NewTipPage.step].
  destruct (onSubmit_begin_runs (page_state pg) (form (page_state pg)) now)
    as [[error E]|[S' E]]; [|congruence].
  rewrite E. cbn [Eff.trace Eff.outcome fst snd]. now destruct pg.
Qed.

(** X14. The amount follows its text over every lifetime of the page:
    from the mount on, whatever is typed, switched, selected or
    submitted, the amount is a number (never [undefined], never NaN),
    and whenever the amount text reads as a number it is that number. *)
Theorem amount_agrees_with_text (rates : option (gmap string number))
    (path : string) (es : list (Event Date)) :
  let st := page_state (fst (run (mounted rates path) es)) in
  exists v, amount (form st) = Some v /\ isNaN v = false /\
            (isNaN (parseFloat (amountString (form st))) = false ->
             parseFloat (amountString (form st)) = v).
Proof. apply run_in_step, mounted_in_step. Qed.

(** X15. On the mounted page a submission is refused with "Invalid tip
    amount" only in fiat mode, and only because the conversion of a
    proper amount with the rate gave NaN: in base-unit mode that error
    never occurs. *)
Theorem invalid_amount_only_in_fiat (rates : option (gmap string number))
    (path : string) (es : list (Event Date)) (now : Date)
    (o : FetchOutcome) :
  let st := page_state (fst (run (mounted rates path) es)) in
  Eff.outcome (onSubmit st (form st) now o) = inl "Invalid tip amount" ->
  inputMethod st = fiat /\
  exists v rate,
    amount (form st) = Some v /\ isNaN v = false /\
    watchedExchangeRate st = Some rate /\ truthy rate = true /\
    isNaN (getSatsAmount v rate) = true.
Proof.
  cbv zeta. set (st := page_state (fst (run _ es))).
  pose proof (run_in_step es _ (mounted_in_step rates path)) as I.
  fold st in I. destruct I as (v & A & Nv & _).
  destruct (truthy_opt (watchedExchangeRate st)) eqn:R.
  2: { rewrite NewTipFacts.onSubmit_without_rate by exact R. discriminate. }
  destruct (watchedExchangeRate st) as [rate|] eqn:W; [|discriminate].
  simpl in R.
  rewrite (NewTipFacts.onSubmit_with_rate _ _ _ _ _ _ st (form st) now o
             rate W R).
  cbv zeta. unfold Eff.outcome.
  destruct (isSubmitting st); [discriminate|].
  destruct (isNaN (satsAmount st (form st))) eqn:N.
  - intros _. unfold NewTip.satsAmount in N. rewrite A, W in N.
    cbn [ToNumber] in N. destruct (inputMethod st); [|congruence].
    split; [reflexivity|]. exists v, rate. auto.
  - destruct (lt _ _); [discriminate|].
    destruct (gt _ _).
    { unfold too_large_message. cbn [snd]. rewrite !append_cons.
      discriminate. }
    destruct (strict_neq _ _); discriminate.
Qed.

(** The page's two steps make [onSubmit]: a submission while nothing is
    in flight, followed by the end of its request, performs what
    [onSubmit] performs when it is run to its end. *)
Lemma submit_then_settled pg now o :
  page_inFlight pg = 0%nat ->
  snd (run pg [Submit now; Settled o]) =
  Eff.trace (onSubmit (page_state pg) (form (page_state pg)) now o).
Proof.
  intros F. rewrite onSubmit_split. cbn [NewTipPage.run NewTipPage.step].
  destruct (onSubmit_begin_runs (page_state pg) (form (page_state pg)) now)
    as [[error E]|[_ E]]; rewrite E;
    cbn [Eff.trace Eff.outcome fst snd page_inFlight].
  - rewrite F. reflexivity.
  - rewrite submitTip_resume_trace, app_nil_r. reflexivity.
Qed.

End WithLibs.

Lemma request_amount_valid_witness :
  let a := satsAmount Utils.getSatsAmount Sample.page Sample.data in
  isNaN a = false /\ ge a Sample.MIN_TIP_SATS = true /\
  le a Sample.MAX_TIP_SATS = true.
Proof.
  destruct (request_amount_valid
              Sample.MIN_TIP_SATS Sample.MAX_TIP_SATS Sample.Routes_tips
              Utils.getSatsAmount Z Sample.add Sample.page Sample.data 0
              (Response true "OK" (JsonTip "tip1")) "/api/tipper/tips" "POST"
              [ ("amount", VNumber 2500); ("currency", VString "USD");
                ("expiry", VDate 259200000); ("tippeeName", VString "Hal");
                ("tippeeLocale", VString "en") ])
    as (_ & _ & _ & N & _ & _ & _ & _ & G & L).
  { vm_compute. right. left. reflexivity. }
  cbv zeta. split; [exact N|]. split; [apply G|apply L]; reflexivity.
Defined.

Lemma invalid_amount_only_in_fiat_witness :
  inputMethod
    (page_state
       (fst (run Sample.MIN_TIP_SATS Sample.MAX_TIP_SATS Sample.Routes_tips
               Utils.getSatsAmount Utils.getFiatAmount Z Sample.add
               (mounted "en" None "/tips/new")
               [ RatesChange (Some {[ "USD" := infinity ]});
                 TypeAmount "Infinity" ]))) = fiat.
Proof.
  refine (proj1 (invalid_amount_only_in_fiat
                   Sample.MIN_TIP_SATS Sample.MAX_TIP_SATS "en"
                   Sample.Routes_tips Utils.getSatsAmount
                   Utils.getFiatAmount Z Sample.add None "/tips/new"
                   [ RatesChange (Some {[ "USD" := infinity ]});
                     TypeAmount "Infinity" ]
                   0 (Response true "OK" (JsonTip "tip1")) _)).
  vm_compute. reflexivity.
Defined.

Lemma switch_shows_converted_witness :
  let st' :=
    clickToggle Utils.getSatsAmount Utils.getFiatAmount Sample.page in
  inputMethod st' = fiat /\ amountString (form st') = "0.5" /\
  amount (form st') = Some 0.5%float.
Proof.
  destruct (switch_shows_converted Utils.getSatsAmount Utils.getFiatAmount
              Sample.page 0.0002%float eq_refl eq_refl)
    as (H1 & H2 & H3 & _).
  { exists 2500%float. split; [reflexivity|]. split; [reflexivity|].
    intros _. vm_compute. reflexivity. }
  cbv zeta. split; [exact H1|]. split.
  - rewrite H2. vm_compute. reflexivity.
  - rewrite H3. vm_compute. reflexivity.
Defined.

Lemma unparsable_text_changes_nothing_witness :
  amount (form (typeAmountString "" Sample.page)) = Some 2500%float.
Proof.
  assert (N : isNaN (parseFloat "") = true) by (vm_compute; reflexivity).
  destruct (unparsable_text_changes_nothing
              Sample.MIN_TIP_SATS Sample.MAX_TIP_SATS Sample.Routes_tips
              Utils.getSatsAmount
              (Utils.calculateFee Sample.MINIMUM_FEE_SATS Sample.FEE_PERCENT)
              Z Sample.add Sample.page "" N) as (_ & H & _).
  exact H.
Defined.

End NewTipPageFacts.

(* ================================================================== *)
(** * Examples *)
(* ================================================================== *)

Module Examples.
Import JS NewTip.

Example Math_round_examples :
  map Math_round
    [2.5; -2.5; 0.4; -0.4; 0.49999999999999994; 9007199254740991; -0.5;
     1e300; 4503599627370495.5; infinity]%float =
    [3; -2; 0; -0; 0; 9007199254740991; -0; 1e300; 4503599627370496;
     infinity]%float.
Proof. vm_compute. reflexivity. Qed.

Example Number_toString_examples :
  map Number_toString
    [0.1 + 0.2; 1e21; 1e-7; 123456789012345680000; 5e-324; 0.000001; 100;
     1 / 3; -1.5; 0.07; 1000000; 1e23; infinity; -0; nan]%float =
    ["0.30000000000000004"; "1e+21"; "1e-7"; "123456789012345680000";
     "5e-324"; "0.000001"; "100"; "0.3333333333333333"; "-1.5"; "0.07";
     "1000000"; "1e+23"; "Infinity"; "0"; "NaN"].
Proof. vm_compute. reflexivity. Qed.

Example parseFloat_examples :
  map parseFloat
    ["0.30000000000000004"; "1e21"; "  12abc"; ".5"; "5."; "-.5e1"; "1e";
     "Infinityx"; "-Infinity"; "1.5.3"; "1e400"; "2e-324"; "-0"; "+7";
     "9007199254740993"] =
    [0.30000000000000004; 1e21; 12; 0.5; 5; -5; 1; infinity; neg_infinity;
     1.5; infinity; 0; -0; 7; 9007199254740992]%float.
Proof. vm_compute. reflexivity. Qed.

Example parseFloat_NaN_examples :
  map (fun s => isNaN (parseFloat s)) [""; "."; "abc"; "e5"; "-"; "NaN"] =
    [true; true; true; true; true; true].
Proof. vm_compute. reflexivity. Qed.

Example onSubmit_errors :
  [ Sample.submit Sample.page_loading 2500;
    Sample.submit (perform Z Sample.page (SetSubmitting true)) 2500;
    Sample.submit Sample.page nan;
    Sample.submit Sample.page 0.5;
    Sample.submit Sample.page 1000001;
    Sample.submit Sample.page 1.5;
    Sample.submit Sample.page 2500 ] =
  [ inl "Exchange rates not loaded";
    inl "Already submitting";
    inl "Invalid tip amount";
    inl "Tip amount is too small";
    inl "Tip amount is too large. Please use a value no more than 1000000 satoshis";
    inl "sat amount must be a whole value";
    inr tt ].
Proof. vm_compute. reflexivity. Qed.

Example onSubmit_not_ok :
  Eff.trace
    (onSubmit Sample.MIN_TIP_SATS Sample.MAX_TIP_SATS Sample.Routes_tips
       Utils.getSatsAmount Z Sample.add Sample.page Sample.data 0
       (Response false "Bad Request" (JsonThrows ""))) =
  [ SetSubmitting true;
    Fetch "/api/tipper/tips" "POST"
      [ ("amount", VNumber 2500); ("currency", VString "USD");
        ("expiry", VDate 259200000); ("tippeeName", VString "Hal");
        ("tippeeLocale", VString "en") ];
    ToastError "Failed to create tip: Bad Request";
    SetSubmitting false ].
Proof. vm_compute. reflexivity. Qed.

(** A visitor who signs in on the claim page: the tip loads, the session
    arrives, the claim is refused, the page renders again. *)
Example claim_once :
  let tip := {| ClaimTipPage.amount := 1000; ClaimTipPage.tipperId := "alice";
                ClaimTipPage.tippeeId := None;
                ClaimTipPage.currency := Some "USD";
                ClaimTipPage.note := None; ClaimTipPage.hasClaimed := false;
                ClaimTipPage.tipper_name := Some "Alice";
                ClaimTipPage.tipper_twitterUsername := None |} in
  let render tip session :=
    ClaimTipPage.Render
      {| ClaimTipPage.publicTip := tip; ClaimTipPage.session := session;
         ClaimTipPage.id := Some "tip1"; ClaimTipPage.mutatePublicTip := 0;
         ClaimTipPage.router := 0 |} in
  let bob := Some {| ClaimTipPage.user_id := "bob" |} in
  snd (ClaimTipPage.run ClaimTipPage.initial
         [ render None None; render (Some tip) None; render (Some tip) bob;
           render (Some tip) bob;
           ClaimTipPage.Settled (ClaimTipPage.Response false "Forbidden");
           render (Some tip) bob ]) =
  [ ClaimTipPage.SetClaimed true;
    ClaimTipPage.Fetch "/api/tippee/tips/tip1/claim" "POST" "{}";
    ClaimTipPage.Alert
      "Failed to claim tip: Forbidden. Please refresh the page to try again." ].
Proof. vm_compute. reflexivity. Qed.

(** The screens of the claim page for Alice's tip: while it loads, for
    a visitor without a session, for Alice, for Bob, and once Bob has
    claimed it for Bob, for Alice and for a visitor without a session. *)
Example claim_screens :
  map (ClaimTipView.render "USD" "/withdraw" (Some {[ "EUR" := 0.0002%float ]}))
    [ Sample.visit None None;
      Sample.visit (Some (Sample.tip false None)) None;
      Sample.visit (Some (Sample.tip false None)) (Some "alice");
      Sample.visit (Some (Sample.tip false None)) (Some "bob");
      Sample.visit (Some (Sample.tip true (Some "bob"))) (Some "bob");
      Sample.visit (Some (Sample.tip true (Some "bob"))) (Some "alice");
      Sample.visit (Some (Sample.tip true (Some "bob"))) None ] =
  let note :=
    Some {| ClaimTipView.note_heading := "Alice also sent you a note:";
            ClaimTipView.note_text := "Thank you!" |} in
  [ ClaimTipView.LoadingTip;
    ClaimTipView.SignInPrompt "Alice has gifted you:"
      {| ClaimTipView.price_currency := "EUR";
         ClaimTipView.price_exchangeRate := Some 0.0002%float;
         ClaimTipView.price_sats := 1000 |}
      1000 note;
    ClaimTipView.CreatorCannotClaim;
    ClaimTipView.ClaimingTip;
    ClaimTipView.TipClaimed "/withdraw" note;
    ClaimTipView.AlreadyGifted;
    ClaimTipView.AlreadyGifted ].
Proof. vm_compute. reflexivity. Qed.

(** A lifetime of the form: a submission before the rates are there;
    half a dollar typed and switched to base units; an amount that is
    not whole, refused; the field emptied and filled again; a submission
    and another one while it runs; the server's refusal; a submission
    that goes through. *)
Example form_lifetime :
  let r :=
    NewTipPage.run Sample.MIN_TIP_SATS Sample.MAX_TIP_SATS
      Sample.Routes_tips Utils.getSatsAmount Utils.getFiatAmount Z Sample.add
      (NewTipPage.mounted "en" None "/tips/new")
      [ NewTipPage.Submit 0;
        NewTipPage.RatesChange (Some {[ "USD" := 0.0002%float ]});
        NewTipPage.TypeAmount "0.5"; NewTipPage.ClickSwitch;
        NewTipPage.TypeAmount "2500.5"; NewTipPage.Submit 1;
        NewTipPage.TypeAmount ""; NewTipPage.TypeAmount "2500";
        NewTipPage.Submit 2; NewTipPage.Submit 3;
        NewTipPage.Settled (Response false "Bad Request" (JsonThrows ""));
        NewTipPage.TypeNote "hi"; NewTipPage.Submit 4;
        NewTipPage.Settled (Response true "OK" (JsonTip "tip1")) ] in
  snd r =
    [ SetSubmitting true;
      Fetch "/api/tipper/tips" "POST"
        [ ("amount", VNumber 2500); ("currency", VString "USD");
          ("expiry", VDate 259200002); ("tippeeLocale", VString "en") ];
      ToastError "Failed to create tip: Bad Request";
      SetSubmitting false;
      SetSubmitting true;
      Fetch "/api/tipper/tips" "POST"
        [ ("amount", VNumber 2500); ("currency", VString "USD");
          ("note", VString "hi"); ("expiry", VDate 259200004);
          ("tippeeLocale", VString "en") ];
      ToastSuccess "Tip created";
      RouterPush "/tips/tip1";
      SetSubmitting false ] /\
  location (NewTipPage.page_state (fst r)) = "/tips/tip1" /\
  amountString (form (NewTipPage.page_state (fst r))) = "2500" /\
  inputMethod (NewTipPage.page_state (fst r)) = sats.
Proof. vm_compute. repeat split. Qed.

End Examples.
